(** * orchestrated-ping: the observability core, embedded in Rocq

    A shallow embedding of the Go packages
      - [internal/config]     (config.go: Load, Validate, getEnv, getEnvDuration)
      - [internal/logger]     (ecs.go: ECSHandler and its methods)
      - [internal/metrics]    (metrics.go: the two metric vectors)
      - [internal/middleware] (metrics.go: Metrics, responseWriter)
      - [internal/handlers]   (Ping, Health, Ready, writeJSON)
      - [internal/models]     (responses.go: Response, HealthResponse)
      - [main]                (the start of main)
    together with the small part of the Go standard library they call
    (strconv, time, encoding/json, log/slog, net/http), modelled as far as
    the properties below need it.

    Conventions.  A Go [string] is a Rocq [string] (a sequence of bytes);
    [int], [int64] and [time.Duration] are [Z]; a Go map is a [gmap]; a Go
    [error] is its message; a function returning [(T, error)] returns
    [result T]; mutable state (the standard output, the Prometheus registry,
    the response writer) is passed explicitly. *)

From Stdlib Require Import ZArith String Ascii List DecimalString.
From Stdlib Require DecimalPos DecimalZ.
From stdpp Require Import gmap strings list sorting.

Open Scope Z_scope.

(** ** Errors *)

Definition error := string.

Inductive result (A : Type) : Type :=
| Ok (a : A)
| Err (e : error).
Arguments Ok {A} a.
Arguments Err {A} e.

Definition is_Err {A} (r : result A) : bool :=
  match r with Ok _ => false | Err _ => true end.

(** ** Bytes and decimal digits *)

Definition byte_val (c : ascii) : Z := Z.of_N (N_of_ascii c).

Definition is_digit (c : ascii) : bool :=
  (48 <=? byte_val c) && (byte_val c <=? 57).

Definition digit_val (c : ascii) : Z := byte_val c - 48.

(** ** Package strconv *)
Module strconv.

(** [strconv.Itoa]: the decimal rendering of an [int]. *)
Definition Itoa (i : Z) : string := NilZero.string_of_int (Z.to_int i).

(** The digit loop of [Atoi]/[ParseUint] at base 10: [None] on a byte that
    is not a digit. *)
Fixpoint digits (acc : Z) (s : string) : option Z :=
  match s with
  | EmptyString => Some acc
  | String c s' =>
      if is_digit c then digits (acc * 10 + digit_val c) s' else None
  end.

Definition minInt : Z := - 2 ^ 63.
Definition maxInt : Z := 2 ^ 63 - 1.

(** [strconv.Atoi] on a 64-bit platform: an optional sign, then at least one
    decimal digit and nothing else; the value has to fit an [int].  The
    [NumError] it returns is dropped by its only caller, so failure is
    [None]. *)
Definition Atoi (s : string) : option Z :=
  match s with
  | EmptyString => None
  | String c rest =>
      let neg := Ascii.eqb c "-" in
      let body := if neg || Ascii.eqb c "+" then rest else s in
      match body with
      | EmptyString => None
      | _ =>
          match digits 0 body with
          | None => None
          | Some n =>
              let v := if neg then - n else n in
              if (minInt <=? v) && (v <=? maxInt) then Some v else None
          end
      end
  end.

End strconv.

(** ** Values carried by a log attribute

    [slog.Value.Any()] returns an [interface{}].  The kinds modelled are the
    scalar kinds of [slog.Value]; [VChan] stands for a Go value that
    [encoding/json] refuses (a channel, a function). *)

Definition Duration := Z.

Inductive Value : Type :=
| VNil
| VBool (b : bool)
| VInt64 (i : Z)
| VUint64 (u : Z)
| VString (s : string)
| VDuration (d : Duration)
| VChan.

#[global] Instance Value_eq_dec : EqDecision Value.
Proof. solve_decision. Defined.

(** [time.Duration.Nanoseconds]: a [Duration] is an [int64] count of
    nanoseconds, the method is the conversion to [int64]. *)
Definition Nanoseconds (d : Duration) : Z := d.

(** An attribute of a log record ([slog.Attr]). *)
Record Attr : Type := mkAttr { Key : string; AttrValue : Value }.

(** ** Package time *)
Module time.

Definition Nanosecond : Duration := 1.
Definition Microsecond : Duration := 1000 * Nanosecond.
Definition Millisecond : Duration := 1000 * Microsecond.
Definition Second : Duration := 1000 * Millisecond.
Definition Minute : Duration := 60 * Second.
Definition Hour : Duration := 60 * Minute.

(** An instant: seconds since the Unix epoch, the nanosecond within that
    second (0 .. 999999999), and the offset east of UTC, in seconds, of the
    location it is presented in. *)
Record Time : Type := mkTime { unixSec : Z; nsec : Z; zoneOffset : Z }.

(** [Time.UTC]: the same instant, presented in UTC. *)
Definition UTC (t : Time) : Time :=
  {| unixSec := unixSec t; nsec := nsec t; zoneOffset := 0 |}.

(** [Time.Sub] as used by [time.Since]: the elapsed nanoseconds. *)
Definition Sub (t u : Time) : Duration :=
  (unixSec t - unixSec u) * Second + (nsec t - nsec u).

Definition zeros (n : nat) : string := string_of_list_ascii (repeat "0"%char n).

(** [appendInt]: a sign for a negative number, then the decimal digits
    padded with zeros to [width]. *)
Definition appendInt (x : Z) (width : nat) : string :=
  let ds := strconv.Itoa (Z.abs x) in
  (if x <? 0 then "-" else "") +:+ zeros (width - String.length ds) +:+ ds.

(** The civil date of a day count relative to 1970-01-01, in the proleptic
    Gregorian calendar (what [Time.Date] computes). *)
Definition civil (days : Z) : Z * Z * Z :=
  let z := days + 719468 in
  let era := z / 146097 in
  let doe := z - era * 146097 in
  let yoe := (doe - doe / 1460 + doe / 36524 - doe / 146096) / 365 in
  let doy := doe - (365 * yoe + yoe / 4 - yoe / 100) in
  let mp := (5 * doy + 2) / 153 in
  let d := doy - (153 * mp + 2) / 5 + 1 in
  let m := if mp <? 10 then mp + 3 else mp - 9 in
  let y := yoe + era * 400 + (if m <=? 2 then 1 else 0) in
  (y, m, d).

(** Dropping the zeros at the end of the fraction digits. *)
Fixpoint trimZeros (s : string) : string :=
  match s with
  | EmptyString => EmptyString
  | String c s' =>
      let r := trimZeros s' in
      if Ascii.eqb c "0" && String.eqb r "" then EmptyString else String c r
  end.

(** The ".999999999" element of a layout: nothing for a whole second,
    otherwise the nine digits without their trailing zeros. *)
Definition appendNano (nanosec : Z) : string :=
  if nanosec =? 0 then ""
  else "." +:+ trimZeros (appendInt nanosec 9).

(** The "Z07:00" element of a layout. *)
Definition appendZone (offset : Z) : string :=
  if offset =? 0 then "Z"
  else
    let zone := Z.quot offset 60 in
    (if zone <? 0 then "-" else "+")
      +:+ appendInt (Z.quot (Z.abs zone) 60) 2 +:+ ":"
      +:+ appendInt (Z.rem (Z.abs zone) 60) 2.

(** [t.Format(time.RFC3339Nano)], layout
    "2006-01-02T15:04:05.999999999Z07:00". *)
Definition FormatRFC3339Nano (t : Time) : string :=
  let abs := unixSec t + zoneOffset t in
  let '(y, m, d) := civil (abs / 86400) in
  let sod := abs mod 86400 in
  appendInt y 4 +:+ "-" +:+ appendInt m 2 +:+ "-" +:+ appendInt d 2 +:+ "T"
    +:+ appendInt (sod / 3600) 2 +:+ ":" +:+ appendInt (sod mod 3600 / 60) 2
    +:+ ":" +:+ appendInt (sod mod 60) 2
    +:+ appendNano (nsec t) +:+ appendZone (zoneOffset t).

(** *** [time.ParseDuration] *)

(** [leadingInt]: the leading digits of [s] as a number, and the rest;
    [None] when the number passes 2^63. *)
Fixpoint leadingInt (x : Z) (s : string) : option (Z * string) :=
  match s with
  | EmptyString => Some (x, s)
  | String c s' =>
      if is_digit c then
        if x >? 2 ^ 63 / 10 then None
        else
          let x' := x * 10 + digit_val c in
          if x' >? 2 ^ 63 then None else leadingInt x' s'
      else Some (x, s)
  end.

(** [leadingFraction]: the digits after the point as [x / scale]; digits
    past the precision of a [uint64] are consumed and ignored. *)
Fixpoint leadingFraction (x scale : Z) (overflow : bool) (s : string)
  : Z * Z * string :=
  match s with
  | EmptyString => (x, scale, s)
  | String c s' =>
      if is_digit c then
        if overflow then leadingFraction x scale overflow s'
        else if x >? (2 ^ 63 - 1) / 10 then leadingFraction x scale true s'
        else
          let y := x * 10 + digit_val c in
          if y >? 2 ^ 63 then leadingFraction x scale true s'
          else leadingFraction y (scale * 10) overflow s'
      else (x, scale, s)
  end.

Definition is_number_byte (c : ascii) : bool := Ascii.eqb c "." || is_digit c.

(** The unit: the bytes up to the next digit or point. *)
Fixpoint unitSpan (s : string) : string * string :=
  match s with
  | EmptyString => (EmptyString, s)
  | String c s' =>
      if is_number_byte c then (EmptyString, s)
      else let '(u, r) := unitSpan s' in (String c u, r)
  end.

Definition micro_sign_s : string :=
  String (ascii_of_nat 194) (String (ascii_of_nat 181) "s").
Definition greek_mu_s : string :=
  String (ascii_of_nat 206) (String (ascii_of_nat 188) "s").

Definition unitMap (u : string) : option Z :=
  if String.eqb u "ns" then Some Nanosecond
  else if String.eqb u "us" then Some Microsecond
  else if String.eqb u micro_sign_s then Some Microsecond
  else if String.eqb u greek_mu_s then Some Microsecond
  else if String.eqb u "ms" then Some Millisecond
  else if String.eqb u "s" then Some Second
  else if String.eqb u "m" then Some Minute
  else if String.eqb u "h" then Some Hour
  else None.

(** The loop over the "number unit" groups; [d] is the [uint64] sum so far.
    Go adds the fraction as [float64(f) * (float64(unit) / scale)]; the
    model takes the exact quotient.  Every round consumes a byte, so
    [String.length s] rounds of fuel are enough. *)
Fixpoint parseGroups (fuel : nat) (d : Z) (s : string) : option Z :=
  match s with
  | EmptyString => Some d
  | String c _ =>
      match fuel with
      | O => None
      | S fuel' =>
          if negb (is_number_byte c) then None
          else
            match leadingInt 0 s with
            | None => None
            | Some (v, s1) =>
                let pre := negb (String.length s =? String.length s1)%nat in
                let '(f, scale, s2, post) :=
                  match s1 with
                  | String "."%char s1' =>
                      let '(f, scale, s2) := leadingFraction 0 1 false s1' in
                      (f, scale, s2,
                       negb (String.length s1' =? String.length s2)%nat)
                  | _ => (0, 1, s1, false)
                  end in
                if negb pre && negb post then None
                else
                  let '(u, s3) := unitSpan s2 in
                  if String.eqb u "" then None
                  else
                    match unitMap u with
                    | None => None
                    | Some unit =>
                        if v >? 2 ^ 63 / unit then None
                        else
                          let v1 := v * unit in
                          let v2 := if f >? 0 then v1 + f * unit / scale else v1 in
                          if v2 >? 2 ^ 63 then None
                          else
                            let d' := (d + v2) mod 2 ^ 64 in
                            if d' >? 2 ^ 63 then None
                            else parseGroups fuel' d' s3
                    end
            end
      end
  end.

Definition ParseDuration (s : string) : option Duration :=
  let '(neg, s1) :=
    match s with
    | String c s' =>
        if Ascii.eqb c "-" then (true, s')
        else if Ascii.eqb c "+" then (false, s')
        else (false, s)
    | EmptyString => (false, s)
    end in
  if String.eqb s1 "0" then Some 0
  else if String.eqb s1 "" then None
  else
    match parseGroups (String.length s1) 0 s1 with
    | None => None
    | Some d =>
        if neg then Some (- d)
        else if d >? 2 ^ 63 - 1 then None
        else Some d
    end.

End time.

(** ** Package encoding/json *)
Module json.

Definition dquote : ascii := ascii_of_nat 34.
Definition backslash : ascii := ascii_of_nat 92.
Definition newline : ascii := ascii_of_nat 10.

Definition hexDigit (n : Z) : ascii :=
  default "0"%char (list_ascii_of_string "0123456789abcdef" !! Z.to_nat n).

(** One byte of a string inside a JSON string literal (the encoder of
    [json.Marshal], which also escapes for HTML, as of Go 1.21).  Bytes from
    0x80 on are copied: the strings are taken to be valid UTF-8 without
    U+2028 and U+2029. *)
Definition escapeByte (c : ascii) : string :=
  let b := byte_val c in
  if Ascii.eqb c dquote || Ascii.eqb c backslash then String backslash (String c "")
  else if b =? 10 then "\n"
  else if b =? 13 then "\r"
  else if b =? 9 then "\t"
  else if (b <? 32) || Ascii.eqb c "<" || Ascii.eqb c ">" || Ascii.eqb c "&" then
    "\u00" +:+ String (hexDigit (b / 16)) (String (hexDigit (b mod 16)) "")
  else String c "".

Fixpoint escape (s : string) : string :=
  match s with
  | EmptyString => EmptyString
  | String c s' => escapeByte c +:+ escape s'
  end.

Definition encodeString (s : string) : string :=
  String dquote (escape s) +:+ String dquote "".

(** The encoding of a value held in an [interface{}]. *)
Definition encodeValue (v : Value) : result string :=
  match v with
  | VNil => Ok "null"
  | VBool b => Ok (if b then "true" else "false")
  | VInt64 i => Ok (strconv.Itoa i)
  | VUint64 u => Ok (strconv.Itoa u)
  | VString s => Ok (encodeString s)
  | VDuration d => Ok (strconv.Itoa d)
  | VChan => Err "json: unsupported type: chan int"
  end.

(** The members of an object, in the given order; the first value that
    cannot be encoded aborts the encoding. *)
Fixpoint encodeMembers (first : bool) (kvs : list (string * Value)) : result string :=
  match kvs with
  | [] => Ok ""
  | (k, v) :: kvs' =>
      match encodeValue v with
      | Err e => Err e
      | Ok ev =>
          match encodeMembers false kvs' with
          | Err e => Err e
          | Ok rest =>
              Ok ((if first then "" else ",") +:+ encodeString k +:+ ":" +:+ ev +:+ rest)
          end
      end
  end.

Definition key_le (p q : string * Value) : Prop := String.leb p.1 q.1 = true.

#[global] Instance key_le_dec p q : Decision (key_le p q).
Proof. unfold key_le. apply _. Defined.

(** [json.Marshal] of a [map[string]interface{}]: one object, its members
    sorted by key. *)
Definition Marshal (m : gmap string Value) : result string :=
  match encodeMembers true (merge_sort key_le (map_to_list m)) with
  | Err e => Err e
  | Ok members => Ok ("{" +:+ members +:+ "}")
  end.

End json.

(** ** Package log/slog *)
Module slog.

Definition Level := Z.
Definition LevelDebug : Level := -4.
Definition LevelInfo : Level := 0.
Definition LevelWarn : Level := 4.
Definition LevelError : Level := 8.

(** [Level.String]: the name of the level at or below, and the distance to
    it when there is one ("%+d"). *)
Definition Level_String (l : Level) : string :=
  let str (base : string) (val : Z) : string :=
    if val =? 0 then base
    else base +:+ (if val <? 0 then "-" else "+") +:+ strconv.Itoa (Z.abs val) in
  if l <? LevelInfo then str "DEBUG" (l - LevelDebug)
  else if l <? LevelWarn then str "INFO" (l - LevelInfo)
  else if l <? LevelError then str "WARN" (l - LevelWarn)
  else str "ERROR" (l - LevelError).

(** [slog.Record]; [Attrs] are in the order [Record.Attrs] visits them. *)
Record Record : Type := mkRecord {
  Time : time.Time;
  Message : string;
  RecLevel : Level;
  Attrs : list Attr
}.

(** An [io.Writer], by identity. *)
Inductive Writer : Type :=
| OsStdout
| OsStderr
| Buffer (id : nat).

#[global] Instance Writer_eq_dec : EqDecision Writer.
Proof. solve_decision. Defined.

(** The state of a [slog.JSONHandler] that the ECS handler can reach: the
    writer and minimum level it was built with, and the attributes and
    groups bound by [WithAttrs] and [WithGroup]. *)
Record JSONHandler : Type := mkJSONHandler {
  w : Writer;
  minLevel : Level;
  boundAttrs : list Attr;
  groups : list string
}.

Definition NewJSONHandler (w : Writer) (level : Level) : JSONHandler :=
  {| w := w; minLevel := level; boundAttrs := []; groups := [] |}.

Definition JSONHandler_Enabled (h : JSONHandler) (level : Level) : bool :=
  minLevel h <=? level.

Definition JSONHandler_WithAttrs (h : JSONHandler) (attrs : list Attr) : JSONHandler :=
  {| w := w h; minLevel := minLevel h;
     boundAttrs := boundAttrs h ++ attrs; groups := groups h |}.

Definition JSONHandler_WithGroup (h : JSONHandler) (name : string) : JSONHandler :=
  {| w := w h; minLevel := minLevel h;
     boundAttrs := boundAttrs h; groups := groups h ++ [name] |}.

End slog.

(** ** The standard output

    [os.Stdout] as a file: the chunks written so far, the number of [Write]
    calls so far, and which calls fail (a closed pipe, a full disk).  A
    failing [Write] writes nothing here; a write that fails after a part of
    its bytes is not modelled, and nothing below is stated about what a
    failing write leaves behind. *)
Record File : Type := mkFile {
  written : list string;
  calls : nat;
  fails : nat -> bool
}.

Definition File_Write (f : File) (b : string) : File * (Z * option error) :=
  if fails f (calls f) then
    ({| written := written f; calls := S (calls f); fails := fails f |},
     (0, Some "write /dev/stdout: broken pipe"))
  else
    ({| written := written f ++ [b]; calls := S (calls f); fails := fails f |},
     (Z.of_nat (String.length b), None)).

(** ** Package config (config.go) *)
Module config.

Definition ServiceName : string := "orchestrated-ping".
Definition ServiceVersion : string := "1.0.0".
Definition ECSVersion : string := "8.11.0".

Record ServerConfig : Type := mkServerConfig {
  Port : string;
  ReadTimeout : Duration;
  WriteTimeout : Duration;
  ShutdownTimeout : Duration
}.

Record ServiceConfig : Type := mkServiceConfig {
  Name : string;
  Version : string
}.

Record Config : Type := mkConfig {
  Server : ServerConfig;
  Service : ServiceConfig;
  Environment : string
}.

(** The process environment; [os.Getenv] gives "" for an unset variable. *)
Definition Getenv (env : gmap string string) (key : string) : string :=
  default "" (env !! key).

Definition getEnv (env : gmap string string) (key defaultValue : string) : string :=
  let value := Getenv env key in
  if negb (String.eqb value "") then value else defaultValue.

Definition getEnvDuration (env : gmap string string) (key : string)
    (defaultValue : Duration) : Duration :=
  let value := Getenv env key in
  if negb (String.eqb value "") then
    match time.ParseDuration value with
    | Some duration => duration
    | None => defaultValue
    end
  else defaultValue.

(** [Validate]: [None] is the nil error. *)
Definition Validate (c : Config) : option error :=
  if String.eqb (Port (Server c)) "" then Some "server port cannot be empty"
  else
    match strconv.Atoi (Port (Server c)) with
    | None => Some ("invalid port number: " +:+ Port (Server c))
    | Some _ =>
        if String.eqb (Name (Service c)) "" then Some "service name cannot be empty"
        else if String.eqb (Version (Service c)) "" then
          Some "service version cannot be empty"
        else None
    end.

Definition Load (env : gmap string string) : result Config :=
  let cfg :=
    {| Server :=
         {| Port := getEnv env "PORT" "8080";
            ReadTimeout := getEnvDuration env "READ_TIMEOUT" (15 * time.Second);
            WriteTimeout := getEnvDuration env "WRITE_TIMEOUT" (15 * time.Second);
            ShutdownTimeout := getEnvDuration env "SHUTDOWN_TIMEOUT" (30 * time.Second) |};
       Service := {| Name := ServiceName; Version := ServiceVersion |};
       Environment := getEnv env "ENVIRONMENT" "development" |} in
  match Validate cfg with
  | Some err => Err ("invalid configuration: " +:+ err)
  | None => Ok cfg
  end.

(** The start of [main]: the process exits with status 1 when [Load] fails,
    before the logger, the handlers and the server are built; otherwise the
    server is created from the configuration and started. *)
Inductive Startup : Type :=
| Exit (code : Z)
| ServerStarted (cfg : Config).

Definition main_startup (env : gmap string string) : Startup :=
  match Load env with
  | Err _ => Exit 1
  | Ok cfg => ServerStarted cfg
  end.

End config.

(** ** Package logger (ecs.go) *)
Module logger.

(** [mapAttribute] assigns into the Go map [attrs]; here it returns the
    updated map.  The [switch key] is the chain of string comparisons. *)
Definition mapAttribute (attrs : gmap string Value) (key : string) (val : Value)
  : gmap string Value :=
  if String.eqb key "method" then <["http.request.method" := val]> attrs
  else if String.eqb key "path" then <["url.path" := val]> attrs
  else if String.eqb key "status" then <["http.response.status_code" := val]> attrs
  else if String.eqb key "bytes" then <["http.response.body.bytes" := val]> attrs
  else if String.eqb key "duration" then
    match val with
    | VDuration d => <["event.duration" := VInt64 (Nanoseconds d)]> attrs
    | _ => <["event.duration" := val]> attrs
    end
  else if String.eqb key "remote_addr" then <["client.address" := val]> attrs
  else if String.eqb key "request_id" then <["trace.id" := val]> attrs
  else if String.eqb key "error" then <["error.message" := val]> attrs
  else if String.eqb key "uptime" then <["event.uptime" := val]> attrs
  else if String.eqb key "port" then <["server.port" := val]> attrs
  else if String.eqb key "environment" then <["service.environment" := val]> attrs
  else <[key := val]> attrs.

(** The AttributeMapper of the specification, written from its words: a
    fixed lookup table, and identity on every other key. *)
Definition AttributeTable : list (string * string) :=
  [ ("method", "http.request.method");
    ("path", "url.path");
    ("status", "http.response.status_code");
    ("bytes", "http.response.body.bytes");
    ("duration", "event.duration");
    ("remote_addr", "client.address");
    ("request_id", "trace.id");
    ("error", "error.message");
    ("uptime", "event.uptime");
    ("port", "server.port");
    ("environment", "service.environment") ].

Fixpoint assoc (key : string) (table : list (string * string)) : option string :=
  match table with
  | [] => None
  | (k, c) :: table' => if String.eqb key k then Some c else assoc key table'
  end.

Definition AttributeMapper_spec (key : string) : string :=
  match assoc key AttributeTable with
  | Some canonical => canonical
  | None => key
  end.

(** The value stored for an attribute: only a [time.Duration] under the key
    "duration" is converted. *)
Definition storedValue (key : string) (val : Value) : Value :=
  if String.eqb key "duration" then
    match val with
    | VDuration d => VInt64 (Nanoseconds d)
    | _ => val
    end
  else val.

(** The handler: the wrapped [slog.JSONHandler] and the service identity. *)
Record ECSHandler : Type := mkECSHandler {
  handler : slog.JSONHandler;
  serviceName : string;
  version : string
}.

Definition NewECSHandler (w : slog.Writer) (serviceName version : string) : ECSHandler :=
  {| handler := slog.NewJSONHandler w slog.LevelInfo;
     serviceName := serviceName;
     version := version |}.

Definition Enabled (h : ECSHandler) (level : slog.Level) : bool :=
  slog.JSONHandler_Enabled (handler h) level.

(** The first part of [Handle]: the map [attrs] after the fixed fields, the
    service identity and the record's attributes have been assigned, in
    that order. *)
Definition fixedFields (h : ECSHandler) (r : slog.Record) : gmap string Value :=
  <["service.version" := VString (version h)]>
    (<["service.name" := VString (serviceName h)]>
      (<["log.level" := VString (slog.Level_String (slog.RecLevel r))]>
        (<["message" := VString (slog.Message r)]>
          (<["ecs.version" := VString config.ECSVersion]>
            (<["@timestamp" :=
                 VString (time.FormatRFC3339Nano (time.UTC (slog.Time r)))]> ∅))))).

Definition outputRecord (h : ECSHandler) (r : slog.Record) : gmap string Value :=
  fold_left (fun attrs a => mapAttribute attrs (Key a) (AttrValue a))
    (slog.Attrs r) (fixedFields h r).

(** [Handle]: the returned [error] ([None] is nil) and the standard output
    afterwards.  The results of the two [os.Stdout.Write] calls are
    dropped, as in the source. *)
Definition Handle (h : ECSHandler) (r : slog.Record) (stdout : File)
  : option error * File :=
  let attrs := outputRecord h r in
  match json.Marshal attrs with
  | Err err => (Some err, stdout)
  | Ok b =>
      let '(stdout1, _) := File_Write stdout b in
      let '(stdout2, _) := File_Write stdout1 (String json.newline "") in
      (None, stdout2)
  end.

Definition WithAttrs (h : ECSHandler) (attrs : list Attr) : ECSHandler :=
  {| handler := slog.JSONHandler_WithAttrs (handler h) attrs;
     serviceName := serviceName h;
     version := version h |}.

Definition WithGroup (h : ECSHandler) (name : string) : ECSHandler :=
  {| handler := slog.JSONHandler_WithGroup (handler h) name;
     serviceName := serviceName h;
     version := version h |}.

Definition New (cfg : config.Config) : ECSHandler :=
  NewECSHandler slog.OsStdout
    (config.Name (config.Service cfg)) (config.Version (config.Service cfg)).

(** What [slog.Logger] does with a log call on this handler: nothing when
    the level is not enabled, otherwise [Handle] on the record, whose error
    the logger drops. *)
Definition Logger_log (h : ECSHandler) (r : slog.Record) (stdout : File) : File :=
  if negb (Enabled h (slog.RecLevel r)) then stdout
  else (Handle h r stdout).2.

End logger.

(** ** Package metrics (metrics.go)

    The two metric vectors, both with the label names method, endpoint,
    status.  A series is addressed by its label values; the counter holds
    the number of increments, the histogram the observations made, in
    order.  An observation is kept as the elapsed [Duration] from which the
    source computes its [float64] number of seconds. *)
Module metrics.

Definition Labels : Type := string * string * string.

Record Registry : Type := mkRegistry {
  HttpDuration : gmap Labels (list Duration);
  HttpRequestsTotal : gmap Labels Z
}.

Definition empty : Registry :=
  {| HttpDuration := ∅; HttpRequestsTotal := ∅ |}.

Definition observations (reg : Registry) (l : Labels) : list Duration :=
  default [] (HttpDuration reg !! l).

Definition count (reg : Registry) (l : Labels) : Z :=
  default 0 (HttpRequestsTotal reg !! l).

(** [HttpDuration.WithLabelValues(...).Observe(v)] *)
Definition Observe (reg : Registry) (l : Labels) (v : Duration) : Registry :=
  {| HttpDuration := <[l := observations reg l ++ [v]]> (HttpDuration reg);
     HttpRequestsTotal := HttpRequestsTotal reg |}.

(** [HttpRequestsTotal.WithLabelValues(...).Inc()] *)
Definition Inc (reg : Registry) (l : Labels) : Registry :=
  {| HttpDuration := HttpDuration reg;
     HttpRequestsTotal := <[l := count reg l + 1]> (HttpRequestsTotal reg) |}.

End metrics.

(** ** Package net/http, as far as the middleware uses it *)
Module http.

Definition StatusOK : Z := 200.

(** The interface [http.ResponseWriter]: [WriteHeader] and [Write] on a
    writer with state [W]. *)
Class ResponseWriter (W : Type) : Type := {
  WriteHeader : W -> Z -> W;
  Write : W -> string -> W
}.

(** The server's own response: the status line is committed by the first
    [WriteHeader], or by the first [Write] with status 200; a later
    [WriteHeader] is ignored. *)
Record response : Type := mkResponse {
  wroteHeader : bool;
  status : Z;
  body : list string
}.

Definition newResponse : response :=
  {| wroteHeader := false; status := 0; body := [] |}.

Definition response_WriteHeader (w : response) (code : Z) : response :=
  if wroteHeader w then w
  else {| wroteHeader := true; status := code; body := body w |}.

Definition response_Write (w : response) (b : string) : response :=
  let w1 := if wroteHeader w then w else response_WriteHeader w StatusOK in
  {| wroteHeader := wroteHeader w1; status := status w1; body := body w1 ++ [b] |}.

#[global] Instance response_ResponseWriter : ResponseWriter response :=
  {| WriteHeader := response_WriteHeader; Write := response_Write |}.

(** A request: the method, the raw path, and the remote address. *)
Record Request : Type := mkRequest {
  Method : string;
  Path : string;
  RemoteAddr : string
}.

(** One call a handler makes on the writer it is given, through the two
    methods of the interface the proxy overrides or promotes; calls through
    optional interfaces of the writer ([Flusher], [Hijacker]) are not
    modelled. *)
Inductive Call : Type :=
| CallWriteHeader (code : Z)
| CallWrite (b : string).

(** One run of a handler on a request: the calls it makes on its writer, in
    order, and the route pattern the router has left in the request's chi
    routing context when the handler returns. *)
Record Run : Type := mkRun {
  writerCalls : list Call;
  RoutePattern : string
}.

Definition Handler : Type := Request -> Run.

Definition call {W} `{ResponseWriter W} (w : W) (c : Call) : W :=
  match c with
  | CallWriteHeader code => WriteHeader w code
  | CallWrite b => Write w b
  end.

(** [ServeHTTP]: the handler's calls reach the writer one after the other. *)
Definition ServeHTTP {W} `{ResponseWriter W} (calls : list Call) (w : W) : W :=
  fold_left call calls w.

End http.

(** ** Package middleware (metrics.go) *)
Module middleware.

(** [responseWriter]: the wrapped writer and the recorded status code. *)
Record responseWriter (W : Type) : Type := mkResponseWriter {
  inner : W;
  statusCode : Z
}.
Arguments mkResponseWriter {W} inner statusCode.
Arguments inner {W} r.
Arguments statusCode {W} r.

Definition responseWriter_WriteHeader {W} `{http.ResponseWriter W}
    (rw : responseWriter W) (code : Z) : responseWriter W :=
  {| inner := http.WriteHeader (inner rw) code; statusCode := code |}.

(** [Write] is not overridden: the embedded writer's method is promoted. *)
Definition responseWriter_Write {W} `{http.ResponseWriter W}
    (rw : responseWriter W) (b : string) : responseWriter W :=
  {| inner := http.Write (inner rw) b; statusCode := statusCode rw |}.

#[global] Instance responseWriter_ResponseWriter {W} `{http.ResponseWriter W}
  : http.ResponseWriter (responseWriter W) :=
  {| http.WriteHeader := responseWriter_WriteHeader;
     http.Write := responseWriter_Write |}.

(** The proxy after the wrapped handler has run on it. *)
Definition served {W} `{http.ResponseWriter W} (next : http.Handler)
    (w : W) (r : http.Request) : responseWriter W :=
  http.ServeHTTP (http.writerCalls (next r))
    {| inner := w; statusCode := http.StatusOK |}.

(** [Metrics()(next)] serving one request: [start] and [finish] are the
    readings of the clock before and after [next]; the result is the
    underlying writer and the registry afterwards. *)
Definition Metrics {W} `{http.ResponseWriter W} (next : http.Handler)
    (start finish : time.Time) (w : W) (r : http.Request)
    (reg : metrics.Registry) : W * metrics.Registry :=
  let ww := served next w r in
  let duration := time.Sub finish start in
  let endpoint := http.RoutePattern (next r) in
  let statusCode := strconv.Itoa (statusCode ww) in
  let reg1 := metrics.Observe reg (http.Method r, endpoint, statusCode) duration in
  let reg2 := metrics.Inc reg1 (http.Method r, endpoint, statusCode) in
  (inner ww, reg2).

End middleware.

(** ** Definitions used in the statements *)

(** The names assigned by [Handle] before the attributes. *)
Definition fixedNames : list string :=
  [ "@timestamp"; "ecs.version"; "message"; "log.level";
    "service.name"; "service.version" ].

(** The loop of [r.Attrs] in [Handle]: the attributes assigned one after
    the other. *)
Definition assignAll (attrs : gmap string Value) (l : list Attr) : gmap string Value :=
  fold_left (fun attrs a => logger.mapAttribute attrs (Key a) (AttrValue a)) l attrs.

(** Whether the byte [c] occurs in [s]. *)
Fixpoint occurs (c : ascii) (s : string) : bool :=
  match s with
  | EmptyString => false
  | String c' s' => Ascii.eqb c c' || occurs c s'
  end.

(** A line: no line separator inside. *)
Definition single_line (s : string) : Prop := occurs json.newline s = false.

(** The code of the first [WriteHeader] call of a handler, as the
    specification words it, and the code of the last one. *)
Fixpoint firstHeaderWrite (calls : list http.Call) : option Z :=
  match calls with
  | [] => None
  | http.CallWriteHeader code :: _ => Some code
  | http.CallWrite _ :: calls' => firstHeaderWrite calls'
  end.

Definition lastHeaderWrite (calls : list http.Call) : option Z :=
  firstHeaderWrite (rev calls).

(** The sum of a measure over all series of a vector. *)
Definition total {A} (g : A → Z) (m : gmap metrics.Labels A) : Z :=
  map_fold (fun _ v acc => g v + acc) 0 m.

(** All increments of the counter vector, and all observations of the
    histogram vector, over all label sets. *)
Definition totalCount (reg : metrics.Registry) : Z :=
  total id (metrics.HttpRequestsTotal reg).

Definition totalObservations (reg : metrics.Registry) : Z :=
  total (fun obs => Z.of_nat (length obs)) (metrics.HttpDuration reg).

(** The configuration [Load] builds from the environment, before it is
    validated. *)
Definition loaded (env : gmap string string) : config.Config :=
  {| config.Server :=
       {| config.Port := config.getEnv env "PORT" "8080";
          config.ReadTimeout :=
            config.getEnvDuration env "READ_TIMEOUT" (15 * time.Second);
          config.WriteTimeout :=
            config.getEnvDuration env "WRITE_TIMEOUT" (15 * time.Second);
          config.ShutdownTimeout :=
            config.getEnvDuration env "SHUTDOWN_TIMEOUT" (30 * time.Second) |};
     config.Service :=
       {| config.Name := config.ServiceName; config.Version := config.ServiceVersion |};
     config.Environment := config.getEnv env "ENVIRONMENT" "development" |}.

(** ** Sample inputs *)

(** The handler of the application ([logger.New] on the loaded
    configuration). *)
Definition ecs : logger.ECSHandler :=
  logger.NewECSHandler slog.OsStdout config.ServiceName config.ServiceVersion.

(** A record without attributes, logged at 2023-11-14T22:13:20Z. *)
Definition plain : slog.Record :=
  slog.mkRecord (time.mkTime 1700000000 0 0) "ping" slog.LevelInfo [].

(** The record of a served request, presented in a zone one hour east of
    UTC. *)
Definition completed : slog.Record :=
  slog.mkRecord (time.mkTime 1700000000 500000000 3600) "request completed"
    slog.LevelInfo
    [ mkAttr "method" (VString "GET"); mkAttr "path" (VString "/ping");
      mkAttr "status" (VInt64 200); mkAttr "duration" (VDuration 1500) ].

(** A record with an attribute named like a fixed field. *)
Definition forged : slog.Record :=
  slog.mkRecord (time.mkTime 1700000000 0 0) "request completed" slog.LevelInfo
    [mkAttr "message" (VString "forged"); mkAttr "status" (VInt64 200)].

(** A record with a value that cannot be serialized. *)
Definition unserializable : slog.Record :=
  slog.mkRecord (time.mkTime 1700000000 0 0) "ping" slog.LevelInfo
    [mkAttr "done" VChan].

(** A standard output that accepts every write, and one on which every
    write fails. *)
Definition accepting : File := mkFile [] 0 (fun _ => false).
Definition broken : File := mkFile [] 0 (fun _ => true).

(** A handler that calls [WriteHeader] twice. *)
Definition twice : http.Handler :=
  fun _ => http.mkRun [http.CallWriteHeader 404; http.CallWriteHeader 500] "/ping".

(** A handler behind a route with a path parameter. *)
Definition userRoute : http.Handler :=
  fun _ => http.mkRun [http.CallWriteHeader 404; http.CallWrite "not found"]
             "/users/{id}".

Definition getPing : http.Request := http.mkRequest "GET" "/ping" "10.0.0.7:51234".

(** An environment with a shutdown timeout that is no duration, and one
    with a port that is no number. *)
Definition badTimeout : gmap string string := {[ "SHUTDOWN_TIMEOUT" := "banana" ]}.
Definition badPort : gmap string string := {[ "PORT" := "http" ]}.

(** ** Further definitions used in the statements *)

(** The name under which [mapAttribute] stores an attribute. *)
Definition mappedKey (a : Attr) : string := logger.AttributeMapper_spec (Key a).

(** The value stored by the last attribute of [l] that is mapped to the
    name [k], if there is one. *)
Fixpoint lastMapped (k : string) (l : list Attr) : option Value :=
  match l with
  | [] => None
  | a :: l' =>
      match lastMapped k l' with
      | Some v => Some v
      | None =>
          if String.eqb (mappedKey a) k
          then Some (logger.storedValue (Key a) (AttrValue a))
          else None
      end
  end.

(** Whether every value of a record is one [json.Marshal] supports. *)
Definition serializable (m : gmap string Value) : bool :=
  bool_decide (map_Forall (fun _ v => v ≠ VChan) m).

(** A sequence of log calls on one logger, one after the other. *)
Definition logAll (h : logger.ECSHandler) (rs : list slog.Record) (stdout : File) : File :=
  fold_left (fun out r => logger.Logger_log h r out) rs stdout.

(** The line of a record, when the logger writes one: the record is
    enabled, and its output record can be serialized. *)
Definition lineOf (h : logger.ECSHandler) (r : slog.Record) : option string :=
  if logger.Enabled h (slog.RecLevel r) then
    match json.Marshal (logger.outputRecord h r) with
    | Ok b => Some b
    | Err _ => None
    end
  else None.

(** Lines as they are written: each followed by the line separator, in two
    chunks. *)
Definition asChunks (lines : list string) : list string :=
  flat_map (fun b => [b; String json.newline ""]) lines.

(** The handlers obtained from [root] by [WithAttrs] and [WithGroup], in any
    number and order. *)
Inductive derived (root : logger.ECSHandler) : logger.ECSHandler → Prop :=
| derived_root : derived root root
| derived_WithAttrs (h : logger.ECSHandler) (attrs : list Attr) :
    derived root h → derived root (logger.WithAttrs h attrs)
| derived_WithGroup (h : logger.ECSHandler) (name : string) :
    derived root h → derived root (logger.WithGroup h name).

(** One request served through the middleware: the two clock readings, the
    writer the server hands in, and the request. *)
Record Exchange (W : Type) : Type := mkExchange {
  started : time.Time;
  finished : time.Time;
  writer : W;
  request : http.Request
}.
Arguments mkExchange {W} started finished writer request.
Arguments started {W} e.
Arguments finished {W} e.
Arguments writer {W} e.
Arguments request {W} e.

(** The label values [Metrics] uses for an exchange. *)
Definition labelsOf {W} `{http.ResponseWriter W} (next : http.Handler)
    (x : Exchange W) : metrics.Labels :=
  (http.Method (request x), http.RoutePattern (next (request x)),
   strconv.Itoa (middleware.statusCode (middleware.served next (writer x) (request x)))).

(** The registry after a sequence of exchanges, served one after the
    other. *)
Definition serveAll {W} `{http.ResponseWriter W} (next : http.Handler)
    (xs : list (Exchange W)) (reg : metrics.Registry) : metrics.Registry :=
  fold_left
    (fun reg x =>
       (middleware.Metrics next (started x) (finished x) (writer x) (request x) reg).2)
    xs reg.

(** Counter and histogram in step: every series has as many observations as
    increments. *)
Definition inStep (reg : metrics.Registry) : Prop :=
  ∀ l : metrics.Labels,
    Z.of_nat (length (metrics.observations reg l)) = metrics.count reg l.

(** The environment variables [Load] reads. *)
Definition configVariables : list string :=
  [ "PORT"; "READ_TIMEOUT"; "WRITE_TIMEOUT"; "SHUTDOWN_TIMEOUT"; "ENVIRONMENT" ].

(** The value of a decimal numeral read from the left, starting from
    [acc]. *)
Fixpoint uint_value (acc : Z) (d : Decimal.uint) : Z :=
  match d with
  | Decimal.Nil => acc
  | Decimal.D0 d' => uint_value (acc * 10 + 0) d'
  | Decimal.D1 d' => uint_value (acc * 10 + 1) d'
  | Decimal.D2 d' => uint_value (acc * 10 + 2) d'
  | Decimal.D3 d' => uint_value (acc * 10 + 3) d'
  | Decimal.D4 d' => uint_value (acc * 10 + 4) d'
  | Decimal.D5 d' => uint_value (acc * 10 + 5) d'
  | Decimal.D6 d' => uint_value (acc * 10 + 6) d'
  | Decimal.D7 d' => uint_value (acc * 10 + 7) d'
  | Decimal.D8 d' => uint_value (acc * 10 + 8) d'
  | Decimal.D9 d' => uint_value (acc * 10 + 9) d'
  end.

(** Whether a string holds a byte that is not a decimal digit. *)
Fixpoint hasNonDigit (s : string) : bool :=
  match s with
  | EmptyString => false
  | String c s' => negb (is_digit c) || hasNonDigit s'
  end.

(** ** [time.Duration.String] and [time.Time.MarshalJSON] *)

Definition digitChar (d : Z) : ascii := ascii_of_nat (Z.to_nat (48 + d)).

(** [fmtFrac]: the fraction of [v / 10^prec] without its trailing zeros,
    with its point, in front of [acc], and [v / 10^prec]. *)
Fixpoint fmtFrac (prec : nat) (v : Z) (print : bool) (acc : string) : string * Z :=
  match prec with
  | O => (if print then String "." acc else acc, v)
  | S prec' =>
      let digit := v mod 10 in
      let print' := print || negb (digit =? 0) in
      fmtFrac prec' (v / 10) print'
        (if print' then String (digitChar digit) acc else acc)
  end.

(** [Duration.String]: "72h3m0.5s", with smaller units below one second
    and "0s" for zero. *)
Definition Duration_String (d : Duration) : string :=
  let u := Z.abs d in
  let body :=
    if u <? time.Second then
      if u =? 0 then "0s"
      else
        let '(prec, unit) :=
          if u <? time.Microsecond then (0%nat, "ns")
          else if u <? time.Millisecond then (3%nat, time.micro_sign_s)
          else (6%nat, "ms") in
        let '(frac, whole) := fmtFrac prec u false unit in
        strconv.Itoa whole +:+ frac
    else
      let '(frac, secs) := fmtFrac 9 u false "s" in
      let s := strconv.Itoa (secs mod 60) +:+ frac in
      let mins := secs / 60 in
      if 0 <? mins then
        let s := strconv.Itoa (mins mod 60) +:+ "m" +:+ s in
        let hours := mins / 60 in
        if 0 <? hours then strconv.Itoa hours +:+ "h" +:+ s else s
      else s in
  (if d <? 0 then "-" else "") +:+ body.

(** The year of an instant in its location. *)
Definition Year (t : time.Time) : Z :=
  (time.civil ((time.unixSec t + time.zoneOffset t) / 86400)).1.1.

(** [Time.MarshalJSON] (as of Go 1.20): the quoted RFC 3339 form with
    nanoseconds, refused for a year that has not four digits and for a zone
    of 24 hours or more. *)
Definition Time_MarshalJSON (t : time.Time) : result string :=
  if (Year t <? 0) || (9999 <? Year t) then
    Err "Time.MarshalJSON: year outside of range [0,9999]"
  else if negb (time.zoneOffset t =? 0)
          && (24 <=? Z.quot (Z.abs (Z.quot (time.zoneOffset t) 60)) 60) then
    Err "Time.MarshalJSON: timezone hour outside of range [0,23]"
  else Ok (String json.dquote (time.FormatRFC3339Nano t) +:+ String json.dquote "").

(** ** Package models (responses.go) *)
Module models.

Record Response : Type := mkResponse {
  Status : string;
  Message : string;
  Time : time.Time
}.

(** The field [Status] of [HealthResponse] is [HealthStatus] here. *)
Record HealthResponse : Type := mkHealthResponse {
  HealthStatus : string;
  Uptime : string
}.

(** [json.Marshal] of the two structs, with their field tags. *)
Definition Marshal_Response (r : Response) : result string :=
  match Time_MarshalJSON (Time r) with
  | Err e => Err ("json: error calling MarshalJSON for type time.Time: " +:+ e)
  | Ok t =>
      Ok ("{" +:+ json.encodeString "status" +:+ ":" +:+ json.encodeString (Status r)
            +:+ "," +:+ json.encodeString "message" +:+ ":"
            +:+ json.encodeString (Message r)
            +:+ "," +:+ json.encodeString "time" +:+ ":" +:+ t +:+ "}")
  end.

Definition Marshal_HealthResponse (r : HealthResponse) : result string :=
  Ok ("{" +:+ json.encodeString "status" +:+ ":" +:+ json.encodeString (HealthStatus r)
        +:+ "," +:+ json.encodeString "uptime" +:+ ":"
        +:+ json.encodeString (Uptime r) +:+ "}").

End models.

(** ** Package handlers (the handlers of the three endpoints) *)
Module handlers.

Record Handler : Type := mkHandler {
  logger : logger.ECSHandler;
  startTime : time.Time
}.

Definition New (logger : logger.ECSHandler) (startTime : time.Time) : Handler :=
  {| logger := logger; startTime := startTime |}.

(** What a handler does to the writer it is given: it sets a header, or
    makes one of the calls the proxy sees. *)
Inductive Op : Type :=
| SetHeader (key value : string)
| WriterCall (c : http.Call).

Definition callsOf (ops : list Op) : list http.Call :=
  omap (fun op => match op with WriterCall c => Some c | SetHeader _ _ => None end) ops.

(** The [data] of [writeJSON]: one of the two response structs. *)
Inductive Data : Type :=
| ofResponse (r : models.Response)
| ofHealth (r : models.HealthResponse).

(** [json.NewEncoder(w).Encode(data)] up to its write: the encoding and a
    line separator, or the error of the encoding. *)
Definition Encode (data : Data) : result string :=
  match match data with
        | ofResponse r => models.Marshal_Response r
        | ofHealth r => models.Marshal_HealthResponse r
        end with
  | Err e => Err e
  | Ok b => Ok (b +:+ String json.newline "")
  end.

(** [writeJSON]: [now] is the clock when the error is logged, [writeErr]
    what the [Write] of the writer returns, if it is called.  The result is
    what was done to the writer, and the standard output afterwards. *)
Definition writeJSON (h : Handler) (statusCode : Z) (data : Data)
    (now : time.Time) (writeErr : option error) (stdout : File)
  : list Op * File :=
  let start :=
    [ SetHeader "Content-Type" "application/json";
      WriterCall (http.CallWriteHeader statusCode) ] in
  let '(ops, err) :=
    match Encode data with
    | Err e => (start, Some e)
    | Ok b => (start ++ [WriterCall (http.CallWrite b)], writeErr)
    end in
  match err with
  | None => (ops, stdout)
  | Some e =>
      (ops,
       logger.Logger_log (logger h)
         (slog.mkRecord now "failed to encode response" slog.LevelError
            [mkAttr "error" (VString e)])
         stdout)
  end.

(** [Ping]: [reqID] is the request id of the context, [tDebug], [tNow] and
    [tError] the clock at the debug line, in the response and at the error
    line. *)
Definition Ping (h : Handler) (reqID : string) (tDebug tNow tError : time.Time)
    (writeErr : option error) (stdout : File) : list Op * File :=
  let stdout1 :=
    logger.Logger_log (logger h)
      (slog.mkRecord tDebug "ping request received" slog.LevelDebug
         [mkAttr "request_id" (VString reqID)])
      stdout in
  writeJSON h http.StatusOK
    (ofResponse {| models.Status := "success"; models.Message := "pong";
                   models.Time := tNow |})
    tError writeErr stdout1.

Definition Health (h : Handler) (reqID : string) (tNow tDebug tError : time.Time)
    (writeErr : option error) (stdout : File) : list Op * File :=
  let uptime := Duration_String (time.Sub tNow (startTime h)) in
  let stdout1 :=
    logger.Logger_log (logger h)
      (slog.mkRecord tDebug "health check" slog.LevelDebug
         [mkAttr "uptime" (VString uptime); mkAttr "request_id" (VString reqID)])
      stdout in
  writeJSON h http.StatusOK
    (ofHealth {| models.HealthStatus := "healthy"; models.Uptime := uptime |})
    tError writeErr stdout1.

Definition Ready (h : Handler) (reqID : string) (tDebug tNow tError : time.Time)
    (writeErr : option error) (stdout : File) : list Op * File :=
  let stdout1 :=
    logger.Logger_log (logger h)
      (slog.mkRecord tDebug "readiness check" slog.LevelDebug
         [mkAttr "request_id" (VString reqID)])
      stdout in
  writeJSON h http.StatusOK
    (ofResponse {| models.Status := "ready";
                   models.Message := "application is ready to serve traffic";
                   models.Time := tNow |})
    tError writeErr stdout1.

End handlers.

(** One run of a handler behind the route [pattern], as the middleware
    sees it. *)
Definition routed (pattern : string) (ops : list handlers.Op) : http.Handler :=
  fun _ => http.mkRun (handlers.callsOf ops) pattern.

(** ** The start of [main], after the configuration is loaded *)

(** The record of the line "application starting". *)
Definition startupRecord (cfg : config.Config) (now : time.Time) : slog.Record :=
  slog.mkRecord now "application starting" slog.LevelInfo
    [ mkAttr "service" (VString (config.Name (config.Service cfg)));
      mkAttr "version" (VString (config.Version (config.Service cfg)));
      mkAttr "environment" (VString (config.Environment cfg));
      mkAttr "port" (VString (config.Port (config.Server cfg))) ].

(** * Properties *)

(** ** The attribute mapper *)

Ltac case_key key lit :=
  destruct (String.eqb_spec key lit) as [-> | ?]; [try reflexivity |].

(** What [mapAttribute] does, in one equation: it assigns the stored value
    under the name the table gives. *)
Lemma mapAttribute_insert (attrs : gmap string Value) (key : string) (val : Value) :
  logger.mapAttribute attrs key val
  = <[logger.AttributeMapper_spec key := logger.storedValue key val]> attrs.
Proof.
  unfold logger.mapAttribute, logger.AttributeMapper_spec, logger.storedValue,
    logger.AttributeTable, logger.assoc.
  case_key key "method". case_key key "path". case_key key "status".
  case_key key "bytes".
  case_key key "duration"; [by destruct val |].
  case_key key "remote_addr". case_key key "request_id". case_key key "error".
  case_key key "uptime". case_key key "port". case_key key "environment".
  reflexivity.
Qed.

Lemma assoc_In (key : string) (table : list (string * string)) (c : string) :
  logger.assoc key table = Some c → In (key, c) table.
Proof.
  induction table as [| [k c'] table IH]; simpl; [done |].
  destruct (String.eqb_spec key k) as [-> | ?].
  - intros [= ->]. by left.
  - intros H. right. by apply IH.
Qed.

(** C1: every key of the table is mapped to its documented canonical name,
    every other key to itself; [mapAttribute] stores the attribute under
    that name, whatever the map and the value (it is a total function, and
    returns no error). *)
Theorem mapAttribute_follows_table :
  (∀ (attrs : gmap string Value) (key : string) (val : Value),
      logger.mapAttribute attrs key val
      = <[logger.AttributeMapper_spec key := logger.storedValue key val]> attrs)
  ∧ logger.AttributeMapper_spec <$> logger.AttributeTable.*1
    = logger.AttributeTable.*2
  ∧ logger.AttributeTable.*2
    = [ "http.request.method"; "url.path"; "http.response.status_code";
        "http.response.body.bytes"; "event.duration"; "client.address";
        "trace.id"; "error.message"; "event.uptime"; "server.port";
        "service.environment" ]
  ∧ (∀ key : string,
      logger.AttributeMapper_spec key = key
      ∨ In (key, logger.AttributeMapper_spec key) logger.AttributeTable).
Proof.
  split; [exact mapAttribute_insert |].
  split; [reflexivity |]. split; [reflexivity |].
  intros key. unfold logger.AttributeMapper_spec.
  destruct (logger.assoc key logger.AttributeTable) as [c |] eqn:E.
  - right. by apply assoc_In.
  - by left.
Qed.

(** C7: under the key "duration", a duration value is stored in
    event.duration as its integer number of nanoseconds, and any other
    value is stored there unchanged. *)
Theorem duration_attribute_in_nanoseconds
    (attrs : gmap string Value) (val : Value) :
  logger.mapAttribute attrs "duration" val !! "event.duration"
  = Some match val with
         | VDuration d => VInt64 (Nanoseconds d)
         | _ => val
         end
  ∧ (∀ d : Duration,
      logger.mapAttribute attrs "duration" (VDuration d)
      = <["event.duration" := VInt64 d]> attrs)
  ∧ (∀ d : Duration, json.encodeValue (VInt64 (Nanoseconds d)) = Ok (strconv.Itoa d)).
Proof.
  split; [| split].
  - rewrite mapAttribute_insert. cbn. rewrite lookup_insert_eq. by destruct val.
  - intros d. by rewrite mapAttribute_insert.
  - done.
Qed.

(** ** The output record *)

Lemma fixed_name_maps_to_itself (k : string) :
  k ∈ fixedNames → logger.AttributeMapper_spec k = k ∧ ∀ v, logger.storedValue k v = v.
Proof.
  unfold fixedNames. rewrite !elem_of_cons, elem_of_nil.
  intros H. by repeat destruct H as [-> | H].
Qed.

(** No key other than a fixed name is mapped onto a fixed name. *)
Ltac table_key key lit Hno :=
  destruct (String.eqb_spec key lit) as [-> | ?];
  [intros H; exfalso; revert H; apply Hno; cbn;
   rewrite !elem_of_cons; tauto |].

Lemma mapped_onto_fixed_name (key : string) :
  logger.AttributeMapper_spec key ∈ fixedNames → logger.AttributeMapper_spec key = key.
Proof.
  unfold logger.AttributeMapper_spec, logger.AttributeTable, logger.assoc.
  assert (Hno : ∀ c : string, c ∈ logger.AttributeTable.*2 → c ∈ fixedNames → False).
  { intros c. unfold fixedNames. cbn. rewrite !elem_of_cons, !elem_of_nil.
    intros Hc H. repeat destruct Hc as [-> | Hc]; try done;
      repeat destruct H as [H | H]; done. }
  table_key key "method" Hno. table_key key "path" Hno.
  table_key key "status" Hno. table_key key "bytes" Hno.
  table_key key "duration" Hno. table_key key "remote_addr" Hno.
  table_key key "request_id" Hno. table_key key "error" Hno.
  table_key key "uptime" Hno. table_key key "port" Hno.
  table_key key "environment" Hno.
  done.
Qed.

Lemma assignAll_untouched (l : list Attr) (attrs : gmap string Value) (k : string) :
  (∀ a, a ∈ l → logger.AttributeMapper_spec (Key a) ≠ k) →
  assignAll attrs l !! k = attrs !! k.
Proof.
  revert attrs. induction l as [| a l IH]; intros attrs Hl; [done |].
  cbn. unfold assignAll in IH. rewrite IH.
  - rewrite mapAttribute_insert. apply lookup_insert_ne.
    apply Hl. by left.
  - intros a' Ha'. apply Hl. by right.
Qed.

Lemma assignAll_fixed_untouched (l : list Attr) (attrs : gmap string Value) (k : string) :
  k ∈ fixedNames → (∀ a, a ∈ l → Key a ≠ k) →
  assignAll attrs l !! k = attrs !! k.
Proof.
  intros Hk Hl. apply assignAll_untouched. intros a Ha E.
  apply (Hl a Ha). rewrite <- E. symmetry. apply mapped_onto_fixed_name.
  by rewrite E.
Qed.

(** C9: an attribute whose key is one of the fixed or injected field names
    is assigned after them, so the output record holds the attribute's
    value under that name (the value of the last such attribute), not the
    event's own message, timestamp, level or service identity. *)
Theorem attribute_replaces_fixed_field
    (h : logger.ECSHandler) (r : slog.Record)
    (before after : list Attr) (k : string) (v : Value) :
  slog.Attrs r = before ++ mkAttr k v :: after →
  k ∈ fixedNames →
  (∀ a, a ∈ after → Key a ≠ k) →
  logger.outputRecord h r !! k = Some v
  ∧ logger.mapAttribute (logger.fixedFields h r) k v = <[k := v]> (logger.fixedFields h r).
Proof.
  intros Hattrs Hk Hafter.
  destruct (fixed_name_maps_to_itself k Hk) as [Hspec Hval].
  split.
  - unfold logger.outputRecord. rewrite Hattrs, fold_left_app. cbn.
    fold (assignAll (logger.fixedFields h r) before).
    set (m := assignAll _ before).
    fold (assignAll (logger.mapAttribute m k v) after).
    rewrite assignAll_fixed_untouched by done.
    rewrite mapAttribute_insert, Hspec, Hval. apply lookup_insert_eq.
  - by rewrite mapAttribute_insert, Hspec, Hval.
Qed.

Lemma attribute_replaces_fixed_field_witness :
  logger.outputRecord ecs forged !! "message" = Some (VString "forged")
  ∧ logger.mapAttribute (logger.fixedFields ecs forged) "message" (VString "forged")
    = <["message" := VString "forged"]> (logger.fixedFields ecs forged).
Proof.
  apply (attribute_replaces_fixed_field ecs forged []
           [mkAttr "status" (VInt64 200)] "message" (VString "forged")).
  - reflexivity.
  - unfold fixedNames. rewrite !elem_of_cons. tauto.
  - intros a Ha. apply list_elem_of_singleton in Ha. by subst a.
Defined.

Lemma fixedFields_lookup (h : logger.ECSHandler) (r : slog.Record) :
  logger.fixedFields h r !! "@timestamp"
    = Some (VString (time.FormatRFC3339Nano (time.UTC (slog.Time r))))
  ∧ logger.fixedFields h r !! "ecs.version" = Some (VString config.ECSVersion)
  ∧ logger.fixedFields h r !! "message" = Some (VString (slog.Message r))
  ∧ logger.fixedFields h r !! "log.level"
    = Some (VString (slog.Level_String (slog.RecLevel r)))
  ∧ logger.fixedFields h r !! "service.name" = Some (VString (logger.serviceName h))
  ∧ logger.fixedFields h r !! "service.version" = Some (VString (logger.version h)).
Proof.
  unfold logger.fixedFields. repeat split; by simplify_map_eq.
Qed.

(** ** Serialization *)

Lemma occurs_app (c : ascii) (s1 s2 : string) :
  occurs c (s1 +:+ s2) = occurs c s1 || occurs c s2.
Proof.
  induction s1 as [| c1 s1 IH]; simpl; [done |].
  by rewrite IH, orb_assoc.
Qed.

Lemma single_line_app (s1 s2 : string) :
  single_line s1 → single_line s2 → single_line (s1 +:+ s2).
Proof. unfold single_line. rewrite occurs_app. by intros -> ->. Qed.

Lemma single_line_escapeByte (c : ascii) : single_line (json.escapeByte c).
Proof. destruct c as [[] [] [] [] [] [] [] []]; vm_compute; reflexivity. Qed.

Lemma single_line_escape (s : string) : single_line (json.escape s).
Proof.
  induction s as [| c s IH]; [done |].
  cbn. apply single_line_app; [apply single_line_escapeByte | done].
Qed.

Lemma single_line_encodeString (s : string) : single_line (json.encodeString s).
Proof.
  unfold json.encodeString.
  change (String json.dquote (json.escape s))
    with (String json.dquote "" +:+ json.escape s).
  apply single_line_app; [| done].
  apply (single_line_app (String json.dquote "")); [done |].
  apply single_line_escape.
Qed.

Lemma single_line_uint (d : Decimal.uint) : single_line (NilEmpty.string_of_uint d).
Proof. induction d; cbn; done. Qed.

Lemma single_line_Itoa (i : Z) : single_line (strconv.Itoa i).
Proof.
  assert (Hu : ∀ d, single_line (NilZero.string_of_uint d)).
  { intros d. unfold NilZero.string_of_uint.
    destruct d; try done; apply (single_line_uint (_ d)). }
  unfold strconv.Itoa, NilZero.string_of_int.
  destruct (Z.to_int i) as [d | d]; [apply Hu |].
  apply (single_line_app "-" _); [done | apply Hu].
Qed.

Lemma single_line_encodeValue (v : Value) (s : string) :
  json.encodeValue v = Ok s → single_line s.
Proof.
  destruct v; cbn; intros [= <-]; try done.
  - by destruct b.
  - apply single_line_Itoa.
  - apply single_line_Itoa.
  - apply single_line_encodeString.
  - apply single_line_Itoa.
Qed.

Lemma single_line_encodeMembers (kvs : list (string * Value)) :
  ∀ (first : bool) (s : string),
    json.encodeMembers first kvs = Ok s → single_line s.
Proof.
  induction kvs as [| [k v] kvs IH]; intros first s; cbn [json.encodeMembers].
  - by intros [= <-].
  - destruct (json.encodeValue v) as [ev |] eqn:Ev; [| done].
    destruct (json.encodeMembers false kvs) as [rest |] eqn:Er; [| done].
    intros [= <-].
    apply single_line_app; [by destruct first |].
    apply single_line_app; [apply single_line_encodeString |].
    apply (single_line_app ":"); [done |].
    apply single_line_app; [by eapply single_line_encodeValue | by eapply IH].
Qed.

(** Whatever [json.Marshal] returns is one object on one line. *)
Lemma Marshal_single_line (m : gmap string Value) (b : string) :
  json.Marshal m = Ok b →
  single_line b ∧ ∃ members, b = "{" +:+ members +:+ "}".
Proof.
  unfold json.Marshal.
  destruct (json.encodeMembers true _) as [members |] eqn:E; [| done].
  intros [= <-]. split; [| by exists members].
  apply (single_line_app "{"); [done |].
  apply single_line_app; [| done].
  by eapply single_line_encodeMembers.
Qed.

(** [json.Marshal] fails only on a value it does not support. *)
Lemma encodeMembers_supported (kvs : list (string * Value)) (first : bool) :
  Forall (fun kv => kv.2 ≠ VChan) kvs →
  ∃ s, json.encodeMembers first kvs = Ok s.
Proof.
  intros H. revert first.
  induction H as [| [k v] kvs Hv _ IH]; intros first; cbn [json.encodeMembers].
  - by eexists.
  - destruct (IH false) as [rest ->].
    destruct v; cbn [json.encodeValue]; try done; by eexists.
Qed.

Lemma Marshal_supported (m : gmap string Value) :
  map_Forall (fun _ v => v ≠ VChan) m → ∃ b, json.Marshal m = Ok b.
Proof.
  intros H. unfold json.Marshal.
  destruct (encodeMembers_supported (merge_sort json.key_le (map_to_list m)) true)
    as [s ->]; [| by eexists].
  rewrite merge_sort_Permutation.
  apply map_Forall_to_list in H.
  eapply Forall_impl; [exact H |]. by intros [k v].
Qed.

Lemma storedValue_supported (k : string) (v : Value) :
  v ≠ VChan → logger.storedValue k v ≠ VChan.
Proof.
  unfold logger.storedValue. destruct (String.eqb k "duration"); [| done].
  by destruct v.
Qed.

Lemma assignAll_supported (l : list Attr) (attrs : gmap string Value) :
  map_Forall (fun _ v => v ≠ VChan) attrs →
  (∀ a, a ∈ l → AttrValue a ≠ VChan) →
  map_Forall (fun _ v => v ≠ VChan) (assignAll attrs l).
Proof.
  revert attrs. induction l as [| a l IH]; intros attrs Hm Hl; [done |].
  cbn. apply IH.
  - rewrite mapAttribute_insert. apply map_Forall_insert_2; [| done].
    apply storedValue_supported, Hl. by left.
  - intros a' Ha'. apply Hl. by right.
Qed.

Lemma outputRecord_supported (h : logger.ECSHandler) (r : slog.Record) :
  (∀ a, a ∈ slog.Attrs r → AttrValue a ≠ VChan) →
  map_Forall (fun _ v => v ≠ VChan) (logger.outputRecord h r).
Proof.
  intros H. apply (assignAll_supported (slog.Attrs r)); [| done].
  unfold logger.fixedFields.
  repeat (apply map_Forall_insert_2; [done |]).
  apply map_Forall_empty.
Qed.

(** What [Handle] does once the record is serialized: two writes, the
    object and the line separator, whose results it does not look at. *)
Lemma Handle_serialized (h : logger.ECSHandler) (r : slog.Record) (stdout : File) (b : string) :
  json.Marshal (logger.outputRecord h r) = Ok b →
  logger.Handle h r stdout
  = (None, (File_Write (File_Write stdout b).1 (String json.newline "")).1).
Proof.
  intros E. unfold logger.Handle. rewrite E.
  destruct (File_Write stdout b) as [f1 r1]. cbn [fst].
  by destruct (File_Write f1 _) as [f2 r2].
Qed.

Lemma Handle_marshal_error (h : logger.ECSHandler) (r : slog.Record) (stdout : File) (e : error) :
  json.Marshal (logger.outputRecord h r) = Err e →
  logger.Handle h r stdout = (Some e, stdout).
Proof. intros E. unfold logger.Handle. by rewrite E. Qed.

(** C6, amended: when no attribute of the event is named like a fixed
    field and every attribute value can be serialized, the output record
    holds the timestamp (RFC3339 with nanoseconds, in UTC), the schema
    version, the message, the level as a string and the service name and
    version; it is serialized as one JSON object without a line separator
    inside, and when the standard output accepts the two writes, the object
    and then the line separator are what [Handle] appends to it. *)
Theorem Handle_writes_one_line
    (h : logger.ECSHandler) (r : slog.Record) (stdout : File) :
  (∀ a, a ∈ slog.Attrs r → Key a ∉ fixedNames) →
  (∀ a, a ∈ slog.Attrs r → AttrValue a ≠ VChan) →
  fails stdout (calls stdout) = false →
  fails stdout (S (calls stdout)) = false →
  let rec := logger.outputRecord h r in
  rec !! "@timestamp"
    = Some (VString (time.FormatRFC3339Nano (time.UTC (slog.Time r))))
  ∧ rec !! "ecs.version" = Some (VString config.ECSVersion)
  ∧ rec !! "message" = Some (VString (slog.Message r))
  ∧ rec !! "log.level" = Some (VString (slog.Level_String (slog.RecLevel r)))
  ∧ rec !! "service.name" = Some (VString (logger.serviceName h))
  ∧ rec !! "service.version" = Some (VString (logger.version h))
  ∧ ∃ b members : string,
      json.Marshal rec = Ok b
      ∧ b = "{" +:+ members +:+ "}"
      ∧ single_line b
      ∧ (logger.Handle h r stdout).1 = None
      ∧ written (logger.Handle h r stdout).2
        = written stdout ++ [b; String json.newline ""].
Proof.
  intros Hkeys Hvals Hw1 Hw2 rec.
  assert (Hfix : ∀ k, k ∈ fixedNames → rec !! k = logger.fixedFields h r !! k).
  { intros k Hk. apply (assignAll_fixed_untouched (slog.Attrs r)); [done |].
    intros a Ha <-. by apply (Hkeys a Ha). }
  destruct (fixedFields_lookup h r) as (F1 & F2 & F3 & F4 & F5 & F6).
  assert (Hin : ∀ k, In k fixedNames → k ∈ fixedNames)
    by (intros k; apply list_elem_of_In).
  rewrite !Hfix by (apply Hin; cbn; tauto).
  do 6 (split; [done |]).
  destruct (Marshal_supported rec (outputRecord_supported h r Hvals)) as [b Hb].
  destruct (Marshal_single_line rec b Hb) as [Hline [members Hmem]].
  exists b, members. do 3 (split; [done |]).
  rewrite (Handle_serialized h r stdout b Hb).
  unfold File_Write. rewrite Hw1. cbn. rewrite Hw2. cbn.
  split; [done |]. by rewrite <- app_assoc.
Qed.

Lemma Handle_writes_one_line_witness :
  let rec := logger.outputRecord ecs completed in
  rec !! "@timestamp"
    = Some (VString (time.FormatRFC3339Nano (time.UTC (slog.Time completed))))
  ∧ rec !! "ecs.version" = Some (VString config.ECSVersion)
  ∧ rec !! "message" = Some (VString (slog.Message completed))
  ∧ rec !! "log.level" = Some (VString (slog.Level_String (slog.RecLevel completed)))
  ∧ rec !! "service.name" = Some (VString (logger.serviceName ecs))
  ∧ rec !! "service.version" = Some (VString (logger.version ecs))
  ∧ ∃ b members : string,
      json.Marshal rec = Ok b
      ∧ b = "{" +:+ members +:+ "}"
      ∧ single_line b
      ∧ (logger.Handle ecs completed accepting).1 = None
      ∧ written (logger.Handle ecs completed accepting).2
        = written accepting ++ [b; String json.newline ""].
Proof.
  apply (Handle_writes_one_line ecs completed accepting).
  - intros a Ha. cbn in Ha. rewrite !elem_of_cons, elem_of_nil in Ha.
    unfold fixedNames. rewrite !elem_of_cons, elem_of_nil.
    destruct Ha as [-> | [-> | [-> | [-> | []]]]]; cbn;
      intros H; repeat destruct H as [H | H]; done.
  - intros a Ha. cbn in Ha. rewrite !elem_of_cons, elem_of_nil in Ha.
    destruct Ha as [-> | [-> | [-> | [-> | []]]]]; done.
  - reflexivity.
  - reflexivity.
Defined.

(** The line of [completed], as it is written. *)
Example Handle_completed_line :
  written (logger.Handle ecs completed accepting).2
  = [ String.concat ""
        [ "{"; json.encodeString "@timestamp"; ":";
          json.encodeString "2023-11-14T22:13:20.5Z"; ",";
          json.encodeString "ecs.version"; ":"; json.encodeString "8.11.0"; ",";
          json.encodeString "event.duration"; ":1500,";
          json.encodeString "http.request.method"; ":"; json.encodeString "GET"; ",";
          json.encodeString "http.response.status_code"; ":200,";
          json.encodeString "log.level"; ":"; json.encodeString "INFO"; ",";
          json.encodeString "message"; ":";
          json.encodeString "request completed"; ",";
          json.encodeString "service.name"; ":";
          json.encodeString "orchestrated-ping"; ",";
          json.encodeString "service.version"; ":"; json.encodeString "1.0.0"; ",";
          json.encodeString "url.path"; ":"; json.encodeString "/ping";
          "}" ];
      String json.newline "" ].
Proof. by vm_compute. Qed.

(** C6 as stated fails: for an event with an attribute named "message" the
    output record does not hold the event's message; and for an event with
    a value that cannot be serialized nothing is written. *)
Lemma fixed_field_replaced_by_attribute :
  logger.outputRecord ecs forged !! "message" ≠ Some (VString (slog.Message forged))
  ∧ logger.outputRecord ecs forged !! "message" = Some (VString "forged")
  ∧ written (logger.Handle ecs unserializable accepting).2 = [].
Proof. by vm_compute. Qed.

(** ** Sub-encoders, failures, levels *)

Lemma Handle_ignores_wrapped_handler (h1 h2 : logger.ECSHandler) (r : slog.Record) (stdout : File) :
  logger.serviceName h1 = logger.serviceName h2 →
  logger.version h1 = logger.version h2 →
  logger.Handle h1 r stdout = logger.Handle h2 r stdout.
Proof.
  intros Hn Hv. unfold logger.Handle, logger.outputRecord, logger.fixedFields.
  by rewrite Hn, Hv.
Qed.

(** C2: [WithAttrs] and [WithGroup] return a new handler with the same
    writer and service identity and leave the receiver as it was, but the
    bound attributes and the group never reach the output: [Handle] of the
    derived handler writes what [Handle] of the parent writes.  For the
    handler bound to request_id=abc, the line of a record has no trace.id. *)
Theorem WithAttrs_not_in_output :
  (∀ (h : logger.ECSHandler) (attrs : list Attr) (name : string)
     (r : slog.Record) (stdout : File),
      slog.w (logger.handler (logger.WithAttrs h attrs)) = slog.w (logger.handler h)
      ∧ logger.serviceName (logger.WithAttrs h attrs) = logger.serviceName h
      ∧ logger.version (logger.WithAttrs h attrs) = logger.version h
      ∧ slog.w (logger.handler (logger.WithGroup h name)) = slog.w (logger.handler h)
      ∧ logger.serviceName (logger.WithGroup h name) = logger.serviceName h
      ∧ logger.version (logger.WithGroup h name) = logger.version h
      ∧ logger.Handle (logger.WithAttrs h attrs) r stdout = logger.Handle h r stdout
      ∧ logger.Handle (logger.WithGroup h name) r stdout = logger.Handle h r stdout)
  ∧ slog.boundAttrs
      (logger.handler (logger.WithAttrs ecs [mkAttr "request_id" (VString "abc")]))
    = [mkAttr "request_id" (VString "abc")]
  ∧ logger.outputRecord (logger.WithAttrs ecs [mkAttr "request_id" (VString "abc")]) plain
      !! "trace.id" = None
  ∧ written (logger.Handle
               (logger.WithAttrs ecs [mkAttr "request_id" (VString "abc")])
               plain accepting).2
    = written (logger.Handle ecs plain accepting).2.
Proof.
  split; [| by vm_compute].
  intros h attrs name r stdout. do 6 (split; [done |]).
  split; by apply Handle_ignores_wrapped_handler.
Qed.

(** C3: a serialization failure is returned by [Handle]; a failing write to
    the standard output is not: with a standard output on which every write
    fails, [Handle] returns nil, and nothing has been written. *)
Theorem Handle_drops_write_failure :
  json.Marshal (logger.outputRecord ecs plain)
  = Ok (String.concat ""
          [ "{"; json.encodeString "@timestamp"; ":";
            json.encodeString "2023-11-14T22:13:20Z"; ",";
            json.encodeString "ecs.version"; ":"; json.encodeString "8.11.0"; ",";
            json.encodeString "log.level"; ":"; json.encodeString "INFO"; ",";
            json.encodeString "message"; ":"; json.encodeString "ping"; ",";
            json.encodeString "service.name"; ":";
            json.encodeString "orchestrated-ping"; ",";
            json.encodeString "service.version"; ":"; json.encodeString "1.0.0";
            "}" ])
  ∧ (File_Write broken "x").2 = (0, Some "write /dev/stdout: broken pipe")
  ∧ (logger.Handle ecs plain broken).1 = None
  ∧ written (logger.Handle ecs plain broken).2 = []
  ∧ (∀ (h : logger.ECSHandler) (r : slog.Record) (stdout : File),
      (logger.Handle h r stdout).1
      = match json.Marshal (logger.outputRecord h r) with
        | Ok _ => None
        | Err err => Some err
        end).
Proof.
  do 4 (split; [by vm_compute |]).
  intros h r stdout. unfold logger.Handle.
  destruct (json.Marshal _) as [b | e]; [| done].
  destruct (File_Write stdout b) as [f1 r1].
  by destruct (File_Write f1 _) as [f2 r2].
Qed.

(** What [Handle] writes when every attribute value can be serialized and
    the standard output accepts the two writes. *)
Lemma Handle_written_line (h : logger.ECSHandler) (r : slog.Record) (stdout : File) :
  (∀ a, a ∈ slog.Attrs r → AttrValue a ≠ VChan) →
  fails stdout (calls stdout) = false →
  fails stdout (S (calls stdout)) = false →
  ∃ b : string,
    json.Marshal (logger.outputRecord h r) = Ok b
    ∧ single_line b
    ∧ (logger.Handle h r stdout).1 = None
    ∧ written (logger.Handle h r stdout).2
      = written stdout ++ [b; String json.newline ""].
Proof.
  intros Hvals Hw1 Hw2.
  destruct (Marshal_supported _ (outputRecord_supported h r Hvals)) as [b Hb].
  destruct (Marshal_single_line _ b Hb) as [Hline _].
  exists b. do 2 (split; [done |]).
  rewrite (Handle_serialized h r stdout b Hb).
  unfold File_Write. rewrite Hw1. cbn. rewrite Hw2. cbn.
  split; [done |]. by rewrite <- app_assoc.
Qed.

(** C10: the handler is built with the minimum level INFO.  A DEBUG event
    is not enabled and leaves the standard output as it was, and so does
    every event below INFO: only an event at INFO or above reaches
    [Handle].  An INFO, WARN or ERROR event is enabled, encoded and
    written: when its attribute values can be serialized and the standard
    output accepts the two writes, the logger appends the JSON object of
    its record, on one line, and the line separator. *)
Theorem debug_events_are_dropped
    (w : slog.Writer) (name ver : string) (t : time.Time) (msg : string)
    (attrs : list Attr) (stdout : File) :
  let h := logger.NewECSHandler w name ver in
  slog.minLevel (logger.handler h) = slog.LevelInfo
  ∧ logger.Enabled h slog.LevelDebug = false
  ∧ logger.Logger_log h (slog.mkRecord t msg slog.LevelDebug attrs) stdout = stdout
  ∧ logger.Enabled h slog.LevelInfo = true
  ∧ logger.Enabled h slog.LevelWarn = true
  ∧ logger.Enabled h slog.LevelError = true
  ∧ (∀ level : slog.Level, logger.Enabled h level = (slog.LevelInfo <=? level))
  ∧ Forall (fun level =>
        logger.Logger_log h (slog.mkRecord t msg level attrs) stdout
        = (logger.Handle h (slog.mkRecord t msg level attrs) stdout).2)
      [slog.LevelInfo; slog.LevelWarn; slog.LevelError]
  ∧ (∀ level : slog.Level,
      logger.Logger_log h (slog.mkRecord t msg level attrs) stdout
      = if slog.LevelInfo <=? level
        then (logger.Handle h (slog.mkRecord t msg level attrs) stdout).2
        else stdout)
  ∧ ((∀ a, a ∈ attrs → AttrValue a ≠ VChan) →
     fails stdout (calls stdout) = false →
     fails stdout (S (calls stdout)) = false →
     Forall (fun level =>
        ∃ b : string,
          json.Marshal
            (logger.outputRecord h (slog.mkRecord t msg level attrs)) = Ok b
          ∧ single_line b
          ∧ written
              (logger.Logger_log h (slog.mkRecord t msg level attrs) stdout)
            = written stdout ++ [b; String json.newline ""])
       [slog.LevelInfo; slog.LevelWarn; slog.LevelError]).
Proof.
  intros h. do 7 (split; [done |]). split; [by repeat constructor |].
  split.
  { intros level. unfold logger.Logger_log. cbn [slog.RecLevel].
    change (logger.Enabled h level) with (slog.LevelInfo <=? level).
    by destruct (slog.LevelInfo <=? level). }
  intros Hvals Hw1 Hw2.
  assert (Hlevel : ∀ level, (slog.LevelInfo <=? level) = true →
            ∃ b : string,
              json.Marshal
                (logger.outputRecord h (slog.mkRecord t msg level attrs)) = Ok b
              ∧ single_line b
              ∧ written
                  (logger.Logger_log h (slog.mkRecord t msg level attrs) stdout)
                = written stdout ++ [b; String json.newline ""]).
  { intros level Hen.
    destruct (Handle_written_line h (slog.mkRecord t msg level attrs) stdout
                Hvals Hw1 Hw2) as (b & Hb & Hline & _ & Hwr).
    exists b. do 2 (split; [done |]).
    unfold logger.Logger_log. cbn [slog.RecLevel].
    change (logger.Enabled h level) with (slog.LevelInfo <=? level).
    by rewrite Hen. }
  repeat constructor; by apply Hlevel.
Qed.

Lemma debug_events_are_dropped_witness :
  Forall (fun level =>
     ∃ b : string,
       json.Marshal
         (logger.outputRecord ecs
            (slog.mkRecord (slog.Time completed) "request completed" level
               (slog.Attrs completed))) = Ok b
       ∧ single_line b
       ∧ written
           (logger.Logger_log ecs
              (slog.mkRecord (slog.Time completed) "request completed" level
                 (slog.Attrs completed)) accepting)
         = written accepting ++ [b; String json.newline ""])
    [slog.LevelInfo; slog.LevelWarn; slog.LevelError].
Proof.
  apply (debug_events_are_dropped slog.OsStdout config.ServiceName
           config.ServiceVersion (slog.Time completed) "request completed"
           (slog.Attrs completed) accepting).
  - intros a Ha. cbn in Ha. rewrite !elem_of_cons, elem_of_nil in Ha.
    destruct Ha as [-> | [-> | [-> | [-> | []]]]]; done.
  - reflexivity.
  - reflexivity.
Defined.

(** ** The response-writer proxy and the metrics middleware *)

Section proxy.
Context {W : Type} `{http.ResponseWriter W}.

Lemma statusCode_snoc (calls : list http.Call) (c : http.Call)
    (rw : middleware.responseWriter W) :
  middleware.statusCode (http.ServeHTTP (calls ++ [c]) rw)
  = match c with
    | http.CallWriteHeader code => code
    | http.CallWrite _ => middleware.statusCode (http.ServeHTTP calls rw)
    end.
Proof.
  unfold http.ServeHTTP. rewrite fold_left_app. cbn. by destruct c.
Qed.

Lemma statusCode_last (calls : list http.Call) (rw : middleware.responseWriter W) :
  middleware.statusCode (http.ServeHTTP calls rw)
  = default (middleware.statusCode rw) (lastHeaderWrite calls).
Proof.
  induction calls as [| c calls IH] using rev_ind; [done |].
  rewrite statusCode_snoc. unfold lastHeaderWrite in *.
  rewrite rev_unit. by destruct c.
Qed.

(** The proxy passes every call on: the wrapped writer ends as if the
    handler had been given it directly. *)
Lemma proxy_forwards (calls : list http.Call) (rw : middleware.responseWriter W) :
  middleware.inner (http.ServeHTTP calls rw)
  = http.ServeHTTP calls (middleware.inner rw).
Proof.
  revert rw. induction calls as [| c calls IH]; intros rw; [done |].
  cbn. unfold http.ServeHTTP in IH. rewrite IH. by destruct c.
Qed.

Lemma lastHeaderWrite_writes (bs : list string) :
  lastHeaderWrite (http.CallWrite <$> bs) = None.
Proof.
  unfold lastHeaderWrite. induction bs as [| b bs IH] using rev_ind; [done |].
  rewrite fmap_app. change (http.CallWrite <$> [b]) with [http.CallWrite b].
  by rewrite rev_unit.
Qed.

Lemma lastHeaderWrite_header_then_writes (code : Z) (bs : list string) :
  lastHeaderWrite (http.CallWriteHeader code :: (http.CallWrite <$> bs)) = Some code.
Proof.
  unfold lastHeaderWrite. induction bs as [| b bs IH] using rev_ind; [done |].
  rewrite fmap_app. change (http.CallWrite <$> [b]) with [http.CallWrite b].
  by rewrite app_comm_cons, rev_unit.
Qed.

(** C4, amended: the proxy records the status code of the last
    [WriteHeader] call of the handler, and 200 when the handler makes
    none; a handler that sets 404 and then writes a body is recorded with
    404, one that only writes a body with 200. *)
Theorem proxy_records_last_WriteHeader
    (next : http.Handler) (w : W) (r : http.Request) (bs : list string) :
  middleware.statusCode (middleware.served next w r)
  = default 200 (lastHeaderWrite (http.writerCalls (next r)))
  ∧ middleware.statusCode
      (http.ServeHTTP (http.CallWrite <$> bs)
         (middleware.mkResponseWriter w http.StatusOK)) = 200
  ∧ middleware.statusCode
      (http.ServeHTTP (http.CallWriteHeader 404 :: (http.CallWrite <$> bs))
         (middleware.mkResponseWriter w http.StatusOK)) = 404.
Proof.
  unfold middleware.served. rewrite !statusCode_last.
  by rewrite lastHeaderWrite_writes, lastHeaderWrite_header_then_writes.
Qed.
End proxy.

(** C4 as stated fails: after WriteHeader(404) and WriteHeader(500) the
    proxy has recorded 500, not the code of the first header write (which
    is also the one the client receives). *)
Lemma proxy_first_write_does_not_win :
  middleware.statusCode (middleware.served twice http.newResponse getPing) = 500
  ∧ firstHeaderWrite (http.writerCalls (twice getPing)) = Some 404
  ∧ http.status (middleware.inner (middleware.served twice http.newResponse getPing)) = 404
  ∧ middleware.statusCode (middleware.served twice http.newResponse getPing)
    ≠ default 200 (firstHeaderWrite (http.writerCalls (twice getPing))).
Proof. by vm_compute. Qed.

Lemma total_insert {A} (g : A → Z) (m : gmap metrics.Labels A) (l : metrics.Labels) (x : A) :
  total g (<[l := x]> m) = g x + total g m - from_option g 0 (m !! l).
Proof.
  assert (Hcomm : ∀ (m' : gmap metrics.Labels A) (j1 j2 : metrics.Labels) (z1 z2 : A) (y : Z),
             j1 ≠ j2 → m' !! j1 = Some z1 → m' !! j2 = Some z2 →
             g z1 + (g z2 + y) = g z2 + (g z1 + y)) by (intros; lia).
  unfold total. destruct (m !! l) as [old |] eqn:E; cbn.
  - rewrite <- insert_delete_eq.
    rewrite map_fold_insert_L; [| by apply Hcomm | by apply lookup_delete_eq].
    rewrite (map_fold_delete_L _ _ l old m); [lia | by apply Hcomm | done].
  - rewrite map_fold_insert_L; [lia | by apply Hcomm | done].
Qed.

(** C5: serving one request through the middleware adds one to the counter
    and one observation (the elapsed time) to the histogram, both in the
    series labelled with the request method, the matched route pattern and
    the recorded status code in decimal; no other series changes, so over
    all series there is exactly one more increment and one more observation. *)
Theorem Metrics_one_sample_pair {W : Type} `{http.ResponseWriter W}
    (next : http.Handler) (start finish : time.Time) (w : W)
    (r : http.Request) (reg : metrics.Registry) :
  let l : metrics.Labels :=
    (http.Method r, http.RoutePattern (next r),
     strconv.Itoa (middleware.statusCode (middleware.served next w r))) in
  let reg' := (middleware.Metrics next start finish w r reg).2 in
  metrics.HttpRequestsTotal reg'
    = <[l := metrics.count reg l + 1]> (metrics.HttpRequestsTotal reg)
  ∧ metrics.HttpDuration reg'
    = <[l := metrics.observations reg l ++ [time.Sub finish start]]>
        (metrics.HttpDuration reg)
  ∧ metrics.count reg' l = metrics.count reg l + 1
  ∧ metrics.observations reg' l
    = metrics.observations reg l ++ [time.Sub finish start]
  ∧ totalCount reg' = totalCount reg + 1
  ∧ totalObservations reg' = totalObservations reg + 1.
Proof.
  intros l reg'.
  assert (Hc : metrics.HttpRequestsTotal reg'
               = <[l := metrics.count reg l + 1]> (metrics.HttpRequestsTotal reg))
    by done.
  assert (Hd : metrics.HttpDuration reg'
               = <[l := metrics.observations reg l ++ [time.Sub finish start]]>
                   (metrics.HttpDuration reg)) by done.
  split; [done |]. split; [done |].
  unfold metrics.count at 1. unfold metrics.observations at 1.
  unfold totalCount, totalObservations.
  rewrite Hc, Hd, !lookup_insert_eq, !total_insert.
  split; [done |]. split; [done |].
  unfold metrics.count, metrics.observations.
  destruct (metrics.HttpRequestsTotal reg !! l) as [n |];
    destruct (metrics.HttpDuration reg !! l) as [obs |]; cbn;
    rewrite ?length_app; cbn; split; lia.
Qed.

(** The endpoint label is the route pattern, not the path of the request. *)
Example Metrics_labels_route_pattern :
  let reg := (middleware.Metrics userRoute (time.mkTime 10 0 0) (time.mkTime 10 2500 0)
                http.newResponse (http.mkRequest "GET" "/users/42" "10.0.0.7:51234")
                metrics.empty).2 in
  metrics.count reg ("GET", "/users/{id}", "404") = 1
  ∧ metrics.observations reg ("GET", "/users/{id}", "404") = [2500]
  ∧ metrics.count reg ("GET", "/users/42", "404") = 0.
Proof. by vm_compute. Qed.

(** ** Configuration *)

Lemma getEnv_nonempty (env : gmap string string) (key dflt : string) :
  dflt ≠ "" → config.getEnv env key dflt ≠ "".
Proof.
  intros Hd. unfold config.getEnv.
  destruct (String.eqb_spec (config.Getenv env key) ""); cbn; done.
Qed.

(** C8, amended: [Load] checks one thing, that the listen port is a decimal
    integer.  It fails, and [main] exits with status 1 before anything is
    built, exactly when the port is not; otherwise it returns the
    configuration read from the environment, in which an unset variable has
    its default (port 8080, timeouts 15s, 15s and 30s, environment
    development) and a timeout that does not parse has its default as
    well; the service name and version are constants. *)
Theorem Load_checks_port_only (env : gmap string string) (key dflt : string) (d : Duration) :
  config.Load env
  = match strconv.Atoi (config.getEnv env "PORT" "8080") with
    | None =>
        Err ("invalid configuration: invalid port number: "
               +:+ config.getEnv env "PORT" "8080")
    | Some _ => Ok (loaded env)
    end
  ∧ config.main_startup env
    = match strconv.Atoi (config.getEnv env "PORT" "8080") with
      | None => config.Exit 1
      | Some _ => config.ServerStarted (loaded env)
      end
  ∧ config.getEnv (delete key env) key dflt = dflt
  ∧ config.getEnvDuration (delete key env) key d = d
  ∧ config.getEnvDuration env key d
    = (if String.eqb (config.Getenv env key) "" then d
       else default d (time.ParseDuration (config.Getenv env key)))
  ∧ config.Load ∅
    = Ok {| config.Server :=
              {| config.Port := "8080";
                 config.ReadTimeout := 15000000000;
                 config.WriteTimeout := 15000000000;
                 config.ShutdownTimeout := 30000000000 |};
            config.Service :=
              {| config.Name := "orchestrated-ping"; config.Version := "1.0.0" |};
            config.Environment := "development" |}.
Proof.
  assert (HL : config.Load env
               = match strconv.Atoi (config.getEnv env "PORT" "8080") with
                 | None =>
                     Err ("invalid configuration: invalid port number: "
                            +:+ config.getEnv env "PORT" "8080")
                 | Some _ => Ok (loaded env)
                 end).
  { unfold config.Load. fold (loaded env). unfold config.Validate.
    change (config.Port (config.Server (loaded env)))
      with (config.getEnv env "PORT" "8080").
    destruct (String.eqb_spec (config.getEnv env "PORT" "8080") "") as [E | _].
    - by apply getEnv_nonempty in E.
    - by destruct (strconv.Atoi _). }
  split; [exact HL |]. split.
  { unfold config.main_startup. rewrite HL. by destruct (strconv.Atoi _). }
  split.
  { unfold config.getEnv, config.Getenv. by rewrite lookup_delete_eq. }
  split.
  { unfold config.getEnvDuration, config.Getenv. by rewrite lookup_delete_eq. }
  split; [| by vm_compute].
  unfold config.getEnvDuration.
  destruct (String.eqb_spec (config.Getenv env key) "") as [-> | _]; [done |].
  cbn. by destruct (time.ParseDuration _).
Qed.

(** C8 as stated fails: with SHUTDOWN_TIMEOUT=banana, which is no duration,
    [Load] returns no error; the configuration carries the default 30s and
    the server is started. *)
Lemma Load_accepts_invalid_timeout :
  time.ParseDuration (config.Getenv badTimeout "SHUTDOWN_TIMEOUT") = None
  ∧ is_Err (config.Load badTimeout) = false
  ∧ config.Load badTimeout = Ok (loaded ∅)
  ∧ config.ShutdownTimeout (config.Server (loaded ∅)) = 30 * time.Second
  ∧ config.main_startup badTimeout = config.ServerStarted (loaded ∅).
Proof. by vm_compute. Qed.

(** A port that is not a number stops the start; a number that is no TCP
    port does not. *)
Example Load_port_examples :
  config.Load badPort = Err "invalid configuration: invalid port number: http"
  ∧ config.main_startup badPort = config.Exit 1
  ∧ is_Err (config.Load {[ "PORT" := "99999" ]}) = false.
Proof. by vm_compute. Qed.

(** ** The standard-library models on known values *)

Example FormatRFC3339Nano_examples :
  time.FormatRFC3339Nano (time.mkTime 0 0 0) = "1970-01-01T00:00:00Z"
  ∧ time.FormatRFC3339Nano (time.mkTime 1700000000 123456000 0)
    = "2023-11-14T22:13:20.123456Z"
  ∧ time.FormatRFC3339Nano (time.mkTime (-1) 999999999 0)
    = "1969-12-31T23:59:59.999999999Z"
  ∧ time.FormatRFC3339Nano (time.mkTime 951782400 5 3600)
    = "2000-02-29T01:00:00.000000005+01:00".
Proof. by vm_compute. Qed.

Example ParseDuration_examples :
  time.ParseDuration "1h30m" = Some 5400000000000
  ∧ time.ParseDuration "1.5s" = Some 1500000000
  ∧ time.ParseDuration "-30s" = Some (-30000000000)
  ∧ time.ParseDuration "15" = None
  ∧ time.ParseDuration "banana" = None.
Proof. by vm_compute. Qed.

Example Atoi_examples :
  strconv.Atoi "8080" = Some 8080
  ∧ strconv.Atoi "-12" = Some (-12)
  ∧ strconv.Atoi "+" = None
  ∧ strconv.Atoi "80a" = None
  ∧ strconv.Atoi "9223372036854775808" = None.
Proof. by vm_compute. Qed.

Example Level_String_examples :
  slog.Level_String slog.LevelDebug = "DEBUG"
  ∧ slog.Level_String slog.LevelInfo = "INFO"
  ∧ slog.Level_String slog.LevelWarn = "WARN"
  ∧ slog.Level_String slog.LevelError = "ERROR"
  ∧ slog.Level_String 2 = "INFO+2".
Proof. by vm_compute. Qed.

(** * Further properties *)

(** ** The output record as a whole *)

Lemma assignAll_lookup (l : list Attr) (attrs : gmap string Value) (k : string) :
  assignAll attrs l !! k
  = match lastMapped k l with
    | Some v => Some v
    | None => attrs !! k
    end.
Proof.
  revert attrs. induction l as [| a l IH]; intros attrs; [done |].
  cbn [assignAll fold_left]. fold (assignAll (logger.mapAttribute attrs (Key a) (AttrValue a)) l).
  rewrite IH. cbn [lastMapped].
  destruct (lastMapped k l) as [v |]; [done |].
  rewrite mapAttribute_insert. unfold mappedKey.
  destruct (String.eqb_spec (logger.AttributeMapper_spec (Key a)) k) as [<- | Hne].
  - apply lookup_insert_eq.
  - by apply lookup_insert_ne.
Qed.

(** X1: under every name, the record serialized by [Handle] holds the value
    stored by the last attribute mapped to that name, and without such an
    attribute the fixed field of that name, if it is one. *)
Theorem outputRecord_lookup (h : logger.ECSHandler) (r : slog.Record) (k : string) :
  logger.outputRecord h r !! k
  = match lastMapped k (slog.Attrs r) with
    | Some v => Some v
    | None => logger.fixedFields h r !! k
    end.
Proof. apply (assignAll_lookup (slog.Attrs r)). Qed.

Lemma assignAll_dom (l : list Attr) (attrs : gmap string Value) :
  dom (assignAll attrs l) = dom attrs ∪ list_to_set (mappedKey <$> l).
Proof.
  revert attrs. induction l as [| a l IH]; intros attrs.
  - cbn. by rewrite union_empty_r_L.
  - cbn [assignAll fold_left].
    fold (assignAll (logger.mapAttribute attrs (Key a) (AttrValue a)) l).
    rewrite IH, mapAttribute_insert, dom_insert_L. cbn. unfold mappedKey.
    by rewrite (comm_L (∪) {[_]} (dom attrs)), <- (assoc_L (∪)).
Qed.

(** X2: the names of the output record are the six fixed names and the
    mapped names of the attributes: no attribute is dropped, whatever its
    key, and no fixed field is ever missing. *)
Theorem outputRecord_names (h : logger.ECSHandler) (r : slog.Record) :
  dom (logger.outputRecord h r)
  = list_to_set fixedNames ∪ list_to_set (mappedKey <$> slog.Attrs r).
Proof.
  unfold logger.outputRecord.
  fold (assignAll (logger.fixedFields h r) (slog.Attrs r)).
  rewrite assignAll_dom. f_equal.
Qed.

(** ** Failure and output of [Handle] *)

Lemma encodeMembers_unsupported (kvs : list (string * Value)) (first : bool) :
  Exists (fun kv => kv.2 = VChan) kvs →
  json.encodeMembers first kvs = Err "json: unsupported type: chan int".
Proof.
  intros H. revert first.
  induction H as [[k v] kvs Hv | [k v] kvs _ IH]; intros first;
    cbn [json.encodeMembers].
  - cbn in Hv. by subst v.
  - rewrite (IH false). by destruct (json.encodeValue v) as [ev | e] eqn:E;
      [| destruct v; try done; cbn in E; by injection E as <-].
Qed.

Lemma Marshal_unsupported (m : gmap string Value) :
  ¬ map_Forall (fun _ v => v ≠ VChan) m →
  json.Marshal m = Err "json: unsupported type: chan int".
Proof.
  intros H. unfold json.Marshal.
  rewrite encodeMembers_unsupported; [done |].
  rewrite merge_sort_Permutation.
  destruct (decide (Exists (fun kv : string * Value => kv.2 = VChan) (map_to_list m)))
    as [? | Hn]; [done |].
  exfalso. apply H, map_Forall_to_list, Forall_forall.
  intros [k v] Hin Hv. apply Hn, Exists_exists. by exists (k, v).
Qed.

Lemma Marshal_serializable (m : gmap string Value) :
  is_Err (json.Marshal m) = negb (serializable m).
Proof.
  unfold serializable. case_bool_decide as H.
  - by destruct (Marshal_supported m H) as [b ->].
  - by rewrite (Marshal_unsupported m H).
Qed.

(** X3: [Handle] returns an error exactly when the final record holds a
    value that cannot be serialized (an attribute replaced by a later one
    does not count); the error is the one of [json.Marshal], and in that
    case the standard output is not touched, otherwise two writes are
    attempted. *)
Theorem Handle_error_iff_unserializable
    (h : logger.ECSHandler) (r : slog.Record) (stdout : File) :
  (logger.Handle h r stdout).1
  = (if serializable (logger.outputRecord h r) then None
     else Some "json: unsupported type: chan int")
  ∧ (if serializable (logger.outputRecord h r)
     then calls (logger.Handle h r stdout).2 = S (S (calls stdout))
     else (logger.Handle h r stdout).2 = stdout).
Proof.
  unfold serializable. case_bool_decide as H.
  - destruct (Marshal_supported _ H) as [b Hb].
    rewrite (Handle_serialized h r stdout b Hb). split; [done |].
    unfold File_Write. by repeat (destruct (fails _ _); cbn).
  - by rewrite (Handle_marshal_error h r stdout _ (Marshal_unsupported _ H)).
Qed.

Lemma Logger_log_accepted (h : logger.ECSHandler) (r : slog.Record) (stdout : File) :
  (∀ n, fails stdout n = false) →
  written (logger.Logger_log h r stdout)
  = written stdout
    ++ match lineOf h r with
       | Some b => [b; String json.newline ""]
       | None => []
       end
  ∧ fails (logger.Logger_log h r stdout) = fails stdout.
Proof.
  intros Hok. unfold logger.Logger_log, lineOf.
  destruct (logger.Enabled h (slog.RecLevel r)); cbn [negb];
    [| by rewrite app_nil_r].
  destruct (json.Marshal (logger.outputRecord h r)) as [b | e] eqn:E.
  - rewrite (Handle_serialized h r stdout b E).
    unfold File_Write. rewrite Hok. cbn. rewrite Hok. cbn.
    by rewrite <- app_assoc.
  - rewrite (Handle_marshal_error h r stdout e E). cbn. by rewrite app_nil_r.
Qed.

Lemma lineOf_line (h : logger.ECSHandler) (r : slog.Record) (b : string) :
  lineOf h r = Some b → single_line b ∧ ∃ members, b = "{" +:+ members +:+ "}".
Proof.
  unfold lineOf. destruct (logger.Enabled _ _); [| done].
  destruct (json.Marshal _) as [b' |] eqn:E; [| done].
  intros [= <-]. by apply (Marshal_single_line _ b' E).
Qed.

(** X4: on a standard output that accepts every write, the logger writes
    whole lines and nothing else: after any sequence of log calls, what was
    there stays, and what is added is, in the order of the calls and for
    each record that is enabled and can be serialized, the JSON object of
    the record, without a line separator inside, followed by the line
    separator; the other records add nothing. *)
Theorem logAll_appends_lines
    (h : logger.ECSHandler) (rs : list slog.Record) (stdout : File) :
  (∀ n, fails stdout n = false) →
  written (logAll h rs stdout)
  = written stdout ++ asChunks (omap (lineOf h) rs)
  ∧ Forall (fun b => single_line b ∧ ∃ members, b = "{" +:+ members +:+ "}")
      (omap (lineOf h) rs).
Proof.
  revert stdout. induction rs as [| r rs IH]; intros stdout Hok.
  - cbn. by rewrite app_nil_r.
  - cbn [logAll fold_left]. fold (logAll h rs (logger.Logger_log h r stdout)).
    destruct (Logger_log_accepted h r stdout Hok) as [Hw Hf].
    destruct (IH (logger.Logger_log h r stdout)) as [Hw' HF];
      [intros n; by rewrite Hf |].
    rewrite Hw', Hw. cbn [omap list_omap].
    destruct (lineOf h r) as [b |] eqn:E.
    + split; [by rewrite <- app_assoc |].
      constructor; [by apply (lineOf_line h r) | done].
    + split; [by rewrite app_nil_r | done].
Qed.

Lemma logAll_appends_lines_witness :
  written (logAll ecs [plain; unserializable; completed] accepting)
  = written accepting
    ++ asChunks (omap (lineOf ecs) [plain; unserializable; completed])
  ∧ Forall (fun b => single_line b ∧ ∃ members, b = "{" +:+ members +:+ "}")
      (omap (lineOf ecs) [plain; unserializable; completed]).
Proof. apply logAll_appends_lines. intros n. reflexivity. Defined.

(** ** Order and aliases of attributes *)

Lemma assignAll_Permutation (l1 l2 : list Attr) :
  l1 ≡ₚ l2 → NoDup (mappedKey <$> l1) →
  ∀ attrs : gmap string Value, assignAll attrs l1 = assignAll attrs l2.
Proof.
  induction 1 as [| a l1 l2 Hp IH | a b l | l1 l2 l3 Hp1 IH1 Hp2 IH2];
    intros Hnd attrs.
  - done.
  - cbn. apply IH. by apply NoDup_cons in Hnd as [_ ?].
  - cbn. f_equal. rewrite !mapAttribute_insert.
    apply insert_insert_ne.
    cbn in Hnd. apply NoDup_cons in Hnd as [Hnotin _].
    intros E. apply Hnotin. unfold mappedKey. rewrite E. by left.
  - rewrite IH1 by done. apply IH2. by rewrite <- Hp1.
Qed.

(** X5: when no two attributes of an event are mapped to the same name,
    their order does not matter: events that differ only in the order of
    their attributes give the same record, hence the same result and the
    same output. *)
Theorem attribute_order_irrelevant
    (h : logger.ECSHandler) (t : time.Time) (msg : string) (level : slog.Level)
    (l1 l2 : list Attr) (stdout : File) :
  l1 ≡ₚ l2 →
  NoDup (mappedKey <$> l1) →
  logger.outputRecord h (slog.mkRecord t msg level l1)
  = logger.outputRecord h (slog.mkRecord t msg level l2)
  ∧ logger.Handle h (slog.mkRecord t msg level l1) stdout
    = logger.Handle h (slog.mkRecord t msg level l2) stdout.
Proof.
  intros Hp Hnd.
  assert (E : logger.outputRecord h (slog.mkRecord t msg level l1)
              = logger.outputRecord h (slog.mkRecord t msg level l2)).
  { apply (assignAll_Permutation l1 l2 Hp Hnd). }
  split; [done |]. unfold logger.Handle. by rewrite E.
Qed.

Lemma attribute_order_irrelevant_witness :
  logger.outputRecord ecs
    (slog.mkRecord (time.mkTime 0 0 0) "m" slog.LevelInfo
       [mkAttr "method" (VString "GET"); mkAttr "status" (VInt64 200)])
  = logger.outputRecord ecs
      (slog.mkRecord (time.mkTime 0 0 0) "m" slog.LevelInfo
         [mkAttr "status" (VInt64 200); mkAttr "method" (VString "GET")])
  ∧ logger.Handle ecs
      (slog.mkRecord (time.mkTime 0 0 0) "m" slog.LevelInfo
         [mkAttr "method" (VString "GET"); mkAttr "status" (VInt64 200)]) accepting
    = logger.Handle ecs
        (slog.mkRecord (time.mkTime 0 0 0) "m" slog.LevelInfo
           [mkAttr "status" (VInt64 200); mkAttr "method" (VString "GET")]) accepting.
Proof.
  apply attribute_order_irrelevant.
  - apply perm_swap.
  - cbn. repeat constructor; rewrite ?elem_of_cons, ?elem_of_nil; intros H;
      repeat destruct H as [H | H]; done.
Defined.

Ltac alias_key key lit :=
  destruct (String.eqb_spec key lit) as [-> | ?]; [by vm_compute |].

Lemma AttributeMapper_idempotent (key : string) :
  logger.AttributeMapper_spec (logger.AttributeMapper_spec key)
  = logger.AttributeMapper_spec key
  ∧ String.eqb (logger.AttributeMapper_spec key) "duration" = false.
Proof.
  alias_key key "method". alias_key key "path". alias_key key "status".
  alias_key key "bytes". alias_key key "duration". alias_key key "remote_addr".
  alias_key key "request_id". alias_key key "error". alias_key key "uptime".
  alias_key key "port". alias_key key "environment".
  assert (Hs : logger.AttributeMapper_spec key = key).
  { unfold logger.AttributeMapper_spec, logger.AttributeTable, logger.assoc.
    repeat match goal with
           | H : key ≠ ?lit |- context [String.eqb key ?lit] =>
               rewrite (proj2 (String.eqb_neq key lit) H)
           end.
    done. }
  rewrite !Hs. split; [done |]. by apply String.eqb_neq.
Qed.

(** X6: the table is idempotent, and a canonical name is an alias of the
    key mapped to it: an attribute that already carries the canonical name
    (say http.request.method) is stored, unconverted, in the same field as
    the attribute with the short key (method), and replaces it. *)
Theorem canonical_name_is_alias
    (attrs : gmap string Value) (key : string) (val val' : Value) :
  logger.AttributeMapper_spec (logger.AttributeMapper_spec key)
  = logger.AttributeMapper_spec key
  ∧ logger.mapAttribute (logger.mapAttribute attrs key val)
      (logger.AttributeMapper_spec key) val'
    = <[logger.AttributeMapper_spec key := val']> attrs.
Proof.
  destruct (AttributeMapper_idempotent key) as [Hid Hnd].
  split; [done |].
  rewrite !mapAttribute_insert, Hid.
  unfold logger.storedValue at 1. rewrite Hnd.
  apply insert_insert_eq.
Qed.

(** ** Derived handlers *)

Lemma derived_keeps (w : slog.Writer) (name ver : string) (h : logger.ECSHandler) :
  derived (logger.NewECSHandler w name ver) h →
  slog.w (logger.handler h) = w
  ∧ logger.serviceName h = name
  ∧ logger.version h = ver
  ∧ slog.minLevel (logger.handler h) = slog.LevelInfo.
Proof. induction 1 as [| h attrs _ IH | h g _ IH]; [done | |]; exact IH. Qed.

Lemma derived_Enabled (w : slog.Writer) (name ver : string) (h : logger.ECSHandler)
    (level : slog.Level) :
  derived (logger.NewECSHandler w name ver) h →
  logger.Enabled h level = (slog.LevelInfo <=? level).
Proof.
  intros Hd. destruct (derived_keeps w name ver h Hd) as (_ & _ & _ & Hl).
  unfold logger.Enabled, slog.JSONHandler_Enabled. by rewrite Hl.
Qed.

(** X7: every handler obtained from [NewECSHandler] by any sequence of
    [WithAttrs] and [WithGroup] keeps the writer, the service identity and
    the minimum level INFO of the first one, and handles every record as
    the first one does. *)
Theorem derived_handler_invariant
    (w : slog.Writer) (name ver : string) (h : logger.ECSHandler) :
  derived (logger.NewECSHandler w name ver) h →
  slog.w (logger.handler h) = w
  ∧ logger.serviceName h = name
  ∧ logger.version h = ver
  ∧ (∀ level : slog.Level, logger.Enabled h level = (slog.LevelInfo <=? level))
  ∧ (∀ (r : slog.Record) (stdout : File),
      logger.Handle h r stdout
      = logger.Handle (logger.NewECSHandler w name ver) r stdout)
  ∧ (∀ (r : slog.Record) (stdout : File),
      logger.Logger_log h r stdout
      = logger.Logger_log (logger.NewECSHandler w name ver) r stdout).
Proof.
  intros Hd.
  destruct (derived_keeps w name ver h Hd) as (Hw & Hn & Hv & Hl).
  assert (He : ∀ level, logger.Enabled h level = (slog.LevelInfo <=? level)).
  { intros level. by apply (derived_Enabled w name ver). }
  assert (Hh : ∀ r stdout, logger.Handle h r stdout
                           = logger.Handle (logger.NewECSHandler w name ver) r stdout).
  { intros r stdout. by apply Handle_ignores_wrapped_handler. }
  do 3 (split; [done |]). split; [done |]. split; [done |].
  intros r stdout. unfold logger.Logger_log. by rewrite He, Hh.
Qed.

Lemma derived_handler_invariant_witness :
  let h := logger.WithGroup
             (logger.WithAttrs ecs [mkAttr "request_id" (VString "abc")]) "http" in
  slog.w (logger.handler h) = slog.OsStdout
  ∧ logger.serviceName h = config.ServiceName
  ∧ logger.version h = config.ServiceVersion
  ∧ (∀ level : slog.Level, logger.Enabled h level = (slog.LevelInfo <=? level))
  ∧ (∀ (r : slog.Record) (stdout : File),
      logger.Handle h r stdout = logger.Handle ecs r stdout)
  ∧ (∀ (r : slog.Record) (stdout : File),
      logger.Logger_log h r stdout = logger.Logger_log ecs r stdout).
Proof.
  apply (derived_handler_invariant slog.OsStdout config.ServiceName config.ServiceVersion).
  apply derived_WithGroup, derived_WithAttrs, derived_root.
Defined.

(** ** The middleware over many requests *)

Section exchanges.
Context {W : Type} `{http.ResponseWriter W}.

Lemma Metrics_count (next : http.Handler) (x : Exchange W)
    (reg : metrics.Registry) (l : metrics.Labels) :
  metrics.count
    (middleware.Metrics next (started x) (finished x) (writer x) (request x) reg).2 l
  = metrics.count reg l + (if decide (labelsOf next x = l) then 1 else 0).
Proof.
  change (middleware.Metrics next (started x) (finished x) (writer x) (request x) reg).2
    with (metrics.Inc
            (metrics.Observe reg (labelsOf next x)
               (time.Sub (finished x) (started x)))
            (labelsOf next x)).
  set (lx := labelsOf next x).
  unfold metrics.Inc, metrics.Observe. unfold metrics.count.
  cbn [metrics.HttpRequestsTotal metrics.HttpDuration].
  rewrite lookup_insert. destruct (decide (lx = l)) as [-> | ?]; cbn; lia.
Qed.

Lemma Metrics_observations (next : http.Handler) (x : Exchange W)
    (reg : metrics.Registry) (l : metrics.Labels) :
  metrics.observations
    (middleware.Metrics next (started x) (finished x) (writer x) (request x) reg).2 l
  = metrics.observations reg l
    ++ (if decide (labelsOf next x = l)
        then [time.Sub (finished x) (started x)] else []).
Proof.
  change (middleware.Metrics next (started x) (finished x) (writer x) (request x) reg).2
    with (metrics.Inc
            (metrics.Observe reg (labelsOf next x)
               (time.Sub (finished x) (started x)))
            (labelsOf next x)).
  set (lx := labelsOf next x).
  unfold metrics.Inc, metrics.Observe. unfold metrics.observations.
  cbn [metrics.HttpRequestsTotal metrics.HttpDuration].
  rewrite lookup_insert. destruct (decide (lx = l)) as [-> | ?]; cbn; [done |].
  by rewrite app_nil_r.
Qed.

Lemma serveAll_series (next : http.Handler) (xs : list (Exchange W))
    (reg : metrics.Registry) (l : metrics.Labels) :
  metrics.count (serveAll next xs reg) l
  = metrics.count reg l
    + Z.of_nat (length (filter (fun x => labelsOf next x = l) xs))
  ∧ metrics.observations (serveAll next xs reg) l
    = metrics.observations reg l
      ++ ((fun x => time.Sub (finished x) (started x))
            <$> filter (fun x => labelsOf next x = l) xs).
Proof.
  revert reg. induction xs as [| x xs IH]; intros reg.
  - cbn. split; [lia | by rewrite app_nil_r].
  - cbn [serveAll fold_left].
    fold (serveAll next xs
            (middleware.Metrics next (started x) (finished x) (writer x)
               (request x) reg).2).
    destruct (IH (middleware.Metrics next (started x) (finished x) (writer x)
                    (request x) reg).2) as [-> ->].
    rewrite Metrics_count, Metrics_observations, filter_cons.
    case_decide; cbn; split; try lia; by rewrite <- ?app_assoc, ?app_nil_r.
Qed.

(** X8: after a sequence of requests, every series of the counter has grown
    by the number of requests with its label values, and the series of the
    histogram has received their elapsed times, in the order served: no
    request is lost, none is counted twice, and N requests with the same
    method, route and status add exactly N. *)
Theorem serveAll_counts (next : http.Handler) (xs : list (Exchange W))
    (reg : metrics.Registry) (l : metrics.Labels) :
  metrics.count (serveAll next xs reg) l
  = metrics.count reg l
    + Z.of_nat (length (filter (fun x => labelsOf next x = l) xs))
  ∧ metrics.observations (serveAll next xs reg) l
    = metrics.observations reg l
      ++ ((fun x => time.Sub (finished x) (started x))
            <$> filter (fun x => labelsOf next x = l) xs).
Proof. apply serveAll_series. Qed.

(** X9: the middleware keeps counter and histogram in step: if every series
    has as many observations as increments (as in the empty registry), this
    is so after any sequence of requests. *)
Theorem serveAll_keeps_in_step (next : http.Handler) (xs : list (Exchange W))
    (reg : metrics.Registry) :
  inStep reg → inStep (serveAll next xs reg).
Proof.
  intros Hreg l. destruct (serveAll_series next xs reg l) as [-> ->].
  rewrite length_app, length_fmap, Nat2Z.inj_add, (Hreg l). lia.
Qed.

(** X10: the proxy passes on what it is asked to do: every [WriteHeader]
    and [Write] call made on it reaches the wrapped writer with the same
    argument and in the same order, none is added, dropped or changed, and
    a [Write] leaves the recorded status as it is.  (Calls through optional
    interfaces of the wrapped writer, which the proxy does not expose, are
    outside this statement.) *)
Theorem proxy_passes_calls_on
    (calls : list http.Call) (rw : middleware.responseWriter W)
    (code : Z) (b : string) :
  middleware.inner (http.ServeHTTP calls rw)
  = http.ServeHTTP calls (middleware.inner rw)
  ∧ middleware.inner (http.ServeHTTP (calls ++ [http.CallWriteHeader code]) rw)
    = http.WriteHeader (http.ServeHTTP calls (middleware.inner rw)) code
  ∧ middleware.inner (http.ServeHTTP (calls ++ [http.CallWrite b]) rw)
    = http.Write (http.ServeHTTP calls (middleware.inner rw)) b
  ∧ middleware.statusCode (http.ServeHTTP (calls ++ [http.CallWrite b]) rw)
    = middleware.statusCode (http.ServeHTTP calls rw).
Proof.
  split; [apply proxy_forwards |].
  rewrite !proxy_forwards. unfold http.ServeHTTP. rewrite !fold_left_app.
  by repeat split.
Qed.

End exchanges.

Lemma serveAll_keeps_in_step_witness :
  inStep (serveAll userRoute
            [ mkExchange (time.mkTime 10 0 0) (time.mkTime 10 2500 0)
                http.newResponse (http.mkRequest "GET" "/users/42" "10.0.0.7:51234") ]
            metrics.empty).
Proof.
  apply serveAll_keeps_in_step. intros l. reflexivity.
Defined.

(** ** Decimal numbers: [Itoa] and [Atoi] *)

Lemma Itoa_parsed (i : Z) :
  NilZero.int_of_string (strconv.Itoa i) = Some (Z.to_int i).
Proof.
  unfold strconv.Itoa. apply NilZero.isi.
  - destruct i; cbn; try done; intros [= E]; by apply Stdlib.Numbers.DecimalPos.Unsigned.to_uint_nonnil in E.
  - destruct i; cbn; try done; intros [= E]; by apply Stdlib.Numbers.DecimalPos.Unsigned.to_uint_nonnil in E.
Qed.

Lemma Itoa_inj (i j : Z) : strconv.Itoa i = strconv.Itoa j → i = j.
Proof.
  intros E. apply Stdlib.Numbers.DecimalZ.to_int_inj.
  assert (Some (Z.to_int i) = Some (Z.to_int j)) as [= ->]; [| done].
  by rewrite <- !Itoa_parsed, E.
Qed.

(** X11: two requests fall into the same series exactly when they agree on
    the method, the route pattern and the recorded status code: the decimal
    rendering of the status is injective, so different codes never share a
    series. *)
Theorem labels_identify_series {W : Type} `{http.ResponseWriter W}
    (next : http.Handler) (x y : Exchange W) :
  labelsOf next x = labelsOf next y
  ↔ http.Method (request x) = http.Method (request y)
    ∧ http.RoutePattern (next (request x)) = http.RoutePattern (next (request y))
    ∧ middleware.statusCode (middleware.served next (writer x) (request x))
      = middleware.statusCode (middleware.served next (writer y) (request y)).
Proof.
  unfold labelsOf. split.
  - intros [= Hm Hp Hs]. by apply Itoa_inj in Hs.
  - by intros (-> & -> & ->).
Qed.

Lemma digits_uint (d : Decimal.uint) :
  ∀ acc : Z, strconv.digits acc (NilEmpty.string_of_uint d) = Some (uint_value acc d).
Proof. induction d; intros acc; [reflexivity | exact (IHd _) ..]. Qed.

Lemma uint_value_pos (d : Decimal.uint) :
  ∀ p : positive, uint_value (Z.pos p) d = Z.pos (Pos.of_uint_acc d p).
Proof.
  induction d; intros p; cbn [uint_value Pos.of_uint_acc]; [done | ..];
    rewrite <- IHd; f_equal; lia.
Qed.

Lemma uint_value_0 (d : Decimal.uint) : uint_value 0 d = Z.of_uint d.
Proof.
  unfold Z.of_uint.
  induction d; cbn [uint_value Pos.of_uint]; [done | exact IHd | ..];
    apply (uint_value_pos d).
Qed.

Lemma Atoi_digit_first (c : ascii) (rest : string) :
  is_digit c = true →
  strconv.Atoi (String c rest)
  = match strconv.digits 0 (String c rest) with
    | None => None
    | Some n =>
        if (strconv.minInt <=? n) && (n <=? strconv.maxInt) then Some n else None
    end.
Proof.
  destruct c as [[] [] [] [] [] [] [] []]; try discriminate; reflexivity.
Qed.

Lemma string_of_uint_first (d : Decimal.uint) :
  d ≠ Decimal.Nil →
  ∃ c rest, NilEmpty.string_of_uint d = String c rest ∧ is_digit c = true.
Proof. destruct d; [done | ..]; intros _; by eexists _, _. Qed.

Lemma Atoi_Itoa (n : Z) :
  strconv.minInt ≤ n ≤ strconv.maxInt → strconv.Atoi (strconv.Itoa n) = Some n.
Proof.
  intros Hn.
  assert (Hr : (strconv.minInt <=? n) && (n <=? strconv.maxInt) = true).
  { apply andb_true_intro. split; apply Z.leb_le; lia. }
  destruct n as [| p | p]; [done | |].
  - assert (Hv : Z.of_uint (Pos.to_uint p) = Z.pos p)
      by apply (Stdlib.Numbers.DecimalZ.of_to (Z.pos p)).
    assert (Hnil := Stdlib.Numbers.DecimalPos.Unsigned.to_uint_nonnil p).
    unfold strconv.Itoa. cbn [Z.to_int NilZero.string_of_int].
    replace (NilZero.string_of_uint (Pos.to_uint p))
      with (NilEmpty.string_of_uint (Pos.to_uint p))
      by (by destruct (Pos.to_uint p)).
    destruct (string_of_uint_first _ Hnil) as (c & rest & E & Hc).
    rewrite E, (Atoi_digit_first c rest Hc), <- E, digits_uint, uint_value_0, Hv.
    by rewrite Hr.
  - assert (Hv : Z.of_uint (Pos.to_uint p) = Z.pos p)
      by apply (Stdlib.Numbers.DecimalZ.of_to (Z.pos p)).
    assert (Hnil := Stdlib.Numbers.DecimalPos.Unsigned.to_uint_nonnil p).
    unfold strconv.Itoa. cbn [Z.to_int NilZero.string_of_int].
    replace (NilZero.string_of_uint (Pos.to_uint p))
      with (NilEmpty.string_of_uint (Pos.to_uint p))
      by (by destruct (Pos.to_uint p)).
    destruct (string_of_uint_first _ Hnil) as (c & rest & E & Hc).
    unfold strconv.Atoi. cbn [Ascii.eqb Bool.eqb orb]. rewrite E, <- E.
    rewrite digits_uint, uint_value_0, Hv.
    change (- Z.pos p) with (Z.neg p). by rewrite Hr.
Qed.

Lemma digits_nondigit (s : string) :
  hasNonDigit s = true → ∀ acc : Z, strconv.digits acc s = None.
Proof.
  induction s as [| c s IH]; [done |]. cbn [hasNonDigit strconv.digits].
  intros H acc. destruct (is_digit c); [by apply IH | done].
Qed.

Lemma Atoi_nondigit (c : ascii) (rest : string) :
  hasNonDigit rest = true → strconv.Atoi (String c rest) = None.
Proof.
  intros H. unfold strconv.Atoi.
  destruct (Ascii.eqb c "-" || Ascii.eqb c "+").
  - destruct rest as [| c' rest']; [done |]. by rewrite digits_nondigit.
  - rewrite digits_nondigit; [done |]. cbn. by rewrite H, orb_true_r.
Qed.

(** ** Configuration *)

Lemma Load_port (env : gmap string string) :
  config.Load env
  = match strconv.Atoi (config.getEnv env "PORT" "8080") with
    | None =>
        Err ("invalid configuration: invalid port number: "
               +:+ config.getEnv env "PORT" "8080")
    | Some _ => Ok (loaded env)
    end.
Proof.
  unfold config.Load. fold (loaded env). unfold config.Validate.
  change (config.Port (config.Server (loaded env)))
    with (config.getEnv env "PORT" "8080").
  destruct (String.eqb_spec (config.getEnv env "PORT" "8080") "") as [E | _].
  - by apply getEnv_nonempty in E.
  - by destruct (strconv.Atoi _).
Qed.

Lemma getEnv_set (env : gmap string string) (key value dflt : string) :
  value ≠ "" → config.getEnv (<[key := value]> env) key dflt = value.
Proof.
  intros Hv. unfold config.getEnv, config.Getenv. rewrite lookup_insert_eq. cbn.
  by destruct (String.eqb_spec value "").
Qed.

(** X12: [Validate] accepts exactly the configurations whose port is a
    decimal integer in the range of [int] and whose service name and
    version are not empty; the timeouts and the environment name are not
    looked at. *)
Theorem Validate_accepts_iff (c : config.Config) :
  config.Validate c = None
  ↔ is_Some (strconv.Atoi (config.Port (config.Server c)))
    ∧ config.Name (config.Service c) ≠ ""
    ∧ config.Version (config.Service c) ≠ "".
Proof.
  unfold config.Validate.
  destruct (String.eqb_spec (config.Port (config.Server c)) "") as [E | _].
  { rewrite E. split; [done |]. by intros [[n [=]] _]. }
  destruct (strconv.Atoi _) as [n |].
  2: { split; [done |]. by intros [[n [=]] _]. }
  destruct (String.eqb_spec (config.Name (config.Service c)) "") as [En | Hn].
  { split; [done |]. by intros (_ & ? & _). }
  destruct (String.eqb_spec (config.Version (config.Service c)) "") as [Ev | Hv].
  { split; [done |]. by intros (_ & _ & ?). }
  split; [| done]. intros _. by split; [eexists |].
Qed.

Lemma Load_agree (env1 env2 : gmap string string) :
  (∀ key, key ∈ configVariables → config.Getenv env1 key = config.Getenv env2 key) →
  config.Load env1 = config.Load env2.
Proof.
  intros H.
  assert (Hin : ∀ k, In k configVariables → config.Getenv env1 k = config.Getenv env2 k).
  { intros k Hk. by apply H, list_elem_of_In. }
  unfold config.Load, config.getEnv, config.getEnvDuration.
  rewrite !Hin by (cbn; tauto). done.
Qed.

(** X13: [Load] reads five variables and nothing else: two environments
    that agree on them give the same result, and the same start of the
    process. *)
Theorem Load_reads_five_variables (env1 env2 : gmap string string) :
  (∀ key, key ∈ configVariables → config.Getenv env1 key = config.Getenv env2 key) →
  config.Load env1 = config.Load env2
  ∧ config.main_startup env1 = config.main_startup env2.
Proof.
  intros H. assert (E := Load_agree env1 env2 H).
  split; [done |]. unfold config.main_startup. by rewrite E.
Qed.

Lemma Load_reads_five_variables_witness :
  config.Load {[ "HOME" := "/root" ]} = config.Load ∅
  ∧ config.main_startup {[ "HOME" := "/root" ]} = config.main_startup ∅.
Proof.
  apply Load_reads_five_variables.
  intros key Hk. unfold config.Getenv. rewrite lookup_empty.
  rewrite lookup_singleton_ne; [done |].
  intros <-. unfold configVariables in Hk.
  rewrite !elem_of_cons, elem_of_nil in Hk.
  repeat destruct Hk as [Hk | Hk]; done.
Defined.

(** X14: a variable set to the empty string is the same as an unset one,
    for every variable: [Load] cannot tell them apart. *)
Theorem Load_empty_is_unset (env : gmap string string) (key : string) :
  config.Load (<[key := ""]> env) = config.Load (delete key env)
  ∧ config.getEnv (<[key := ""]> env) key "8080" = "8080".
Proof.
  split.
  - apply Load_agree. intros k _. unfold config.Getenv.
    destruct (decide (key = k)) as [-> | Hne].
    + by rewrite lookup_insert_eq, lookup_delete_eq.
    + by rewrite lookup_insert_ne, lookup_delete_ne.
  - unfold config.getEnv, config.Getenv. by rewrite lookup_insert_eq.
Qed.

(** X15: [Load] accepts as port the decimal rendering of every [int], what
    [Atoi] reads being what [Itoa] wrote: negative numbers and numbers
    beyond 65535 pass, there is no check of the range of a TCP port. *)
Theorem Load_accepts_any_integer (env : gmap string string) (n : Z) :
  strconv.minInt ≤ n ≤ strconv.maxInt →
  strconv.Atoi (strconv.Itoa n) = Some n
  ∧ config.Load (<["PORT" := strconv.Itoa n]> env)
    = Ok (loaded (<["PORT" := strconv.Itoa n]> env))
  ∧ config.Port (config.Server (loaded (<["PORT" := strconv.Itoa n]> env)))
    = strconv.Itoa n.
Proof.
  intros Hn. assert (Ha := Atoi_Itoa n Hn).
  assert (Hne : strconv.Itoa n ≠ "") by (intros E; by rewrite E in Ha).
  split; [done |].
  rewrite Load_port. cbn [loaded config.Server config.Port].
  rewrite (getEnv_set env "PORT" _ "8080" Hne). by rewrite Ha.
Qed.

Lemma Load_accepts_any_integer_witness :
  strconv.Atoi (strconv.Itoa (-1)) = Some (-1)
  ∧ config.Load (<["PORT" := strconv.Itoa (-1)]> ∅)
    = Ok (loaded (<["PORT" := strconv.Itoa (-1)]> ∅))
  ∧ config.Port (config.Server (loaded (<["PORT" := strconv.Itoa (-1)]> ∅)))
    = strconv.Itoa (-1).
Proof.
  apply (Load_accepts_any_integer ∅ (-1)).
  unfold strconv.minInt, strconv.maxInt. lia.
Defined.

(** X16: a port with a byte after the first one that is not a decimal digit
    is refused, whatever the first byte: [Load] fails with the message that
    names the port, and the process exits with status 1. *)
Theorem Load_rejects_non_digits (env : gmap string string) (c : ascii) (rest : string) :
  hasNonDigit rest = true →
  config.Load (<["PORT" := String c rest]> env)
  = Err ("invalid configuration: invalid port number: " +:+ String c rest)
  ∧ config.main_startup (<["PORT" := String c rest]> env) = config.Exit 1.
Proof.
  intros H.
  assert (E : config.Load (<["PORT" := String c rest]> env)
              = Err ("invalid configuration: invalid port number: " +:+ String c rest)).
  { rewrite Load_port, (getEnv_set env "PORT" (String c rest) "8080") by done.
    by rewrite (Atoi_nondigit c rest H). }
  split; [done |]. unfold config.main_startup. by rewrite E.
Qed.

Lemma Load_rejects_non_digits_witness :
  config.Load (<["PORT" := "80 "]> ∅)
  = Err ("invalid configuration: invalid port number: " +:+ "80 ")
  ∧ config.main_startup (<["PORT" := "80 "]> ∅) = config.Exit 1.
Proof. apply (Load_rejects_non_digits ∅ "8" "0 "). reflexivity. Defined.

(** ** The handlers of the endpoints *)

Lemma single_line_zeros (n : nat) : single_line (time.zeros n).
Proof. unfold time.zeros. induction n as [| n IH]; [done | exact IH]. Qed.

Lemma single_line_appendInt (x : Z) (width : nat) : single_line (time.appendInt x width).
Proof.
  unfold time.appendInt.
  apply single_line_app; [by destruct (x <? 0) |].
  apply single_line_app; [apply single_line_zeros | apply single_line_Itoa].
Qed.

Lemma single_line_trimZeros (s : string) : single_line s → single_line (time.trimZeros s).
Proof.
  unfold single_line. induction s as [| c s IH]; [done |].
  cbn [occurs time.trimZeros]. intros [Hc Hs]%orb_false_elim.
  destruct (Ascii.eqb c "0" && String.eqb (time.trimZeros s) ""); [done |].
  cbn [occurs]. by rewrite Hc, IH.
Qed.

Lemma single_line_FormatRFC3339Nano (t : time.Time) :
  single_line (time.FormatRFC3339Nano t).
Proof.
  unfold time.FormatRFC3339Nano.
  destruct (time.civil _) as [[y m] d].
  repeat (apply single_line_app; [first [apply single_line_appendInt | done] |]).
  apply single_line_app.
  - unfold time.appendNano. destruct (time.nsec t =? 0); [done |].
    apply (single_line_app "."); [done |].
    apply single_line_trimZeros, single_line_appendInt.
  - unfold time.appendZone. destruct (time.zoneOffset t =? 0); [done |].
    apply single_line_app; [by destruct (_ <? 0) |].
    apply single_line_app; [apply single_line_appendInt |].
    apply (single_line_app ":"); [done | apply single_line_appendInt].
Qed.

Lemma Encode_line (data : handlers.Data) (b : string) :
  handlers.Encode data = Ok b →
  ∃ line, b = line +:+ String json.newline "" ∧ single_line line.
Proof.
  unfold handlers.Encode. destruct data as [r | r].
  - unfold models.Marshal_Response, Time_MarshalJSON.
    destruct ((Year (models.Time r) <? 0) || (9999 <? Year (models.Time r))); [done |].
    destruct (negb _ && _); [done |].
    intros [= <-]. eexists. split; [done |].
    apply (single_line_app "{"); [done |].
    apply single_line_app; [apply single_line_encodeString |].
    apply (single_line_app ":"); [done |].
    apply single_line_app; [apply single_line_encodeString |].
    apply (single_line_app ","); [done |].
    apply single_line_app; [apply single_line_encodeString |].
    apply (single_line_app ":"); [done |].
    apply single_line_app; [apply single_line_encodeString |].
    apply (single_line_app ","); [done |].
    apply single_line_app; [apply single_line_encodeString |].
    apply (single_line_app ":"); [done |].
    apply single_line_app; [| done].
    apply single_line_app; [| done].
    apply (single_line_app (String json.dquote "")); [done |].
    apply single_line_FormatRFC3339Nano.
  - unfold models.Marshal_HealthResponse.
    intros [= <-]. eexists. split; [done |].
    apply (single_line_app "{"); [done |].
    apply single_line_app; [apply single_line_encodeString |].
    apply (single_line_app ":"); [done |].
    apply single_line_app; [apply single_line_encodeString |].
    apply (single_line_app ","); [done |].
    apply single_line_app; [apply single_line_encodeString |].
    apply (single_line_app ":"); [done |].
    apply single_line_app; [apply single_line_encodeString | done].
Qed.

Lemma writeJSON_ops (h : handlers.Handler) (statusCode : Z) (data : handlers.Data)
    (now : time.Time) (writeErr : option error) (stdout : File) :
  (handlers.writeJSON h statusCode data now writeErr stdout).1
  = [ handlers.SetHeader "Content-Type" "application/json";
      handlers.WriterCall (http.CallWriteHeader statusCode) ]
    ++ match handlers.Encode data with
       | Ok b => [handlers.WriterCall (http.CallWrite b)]
       | Err _ => []
       end.
Proof.
  unfold handlers.writeJSON.
  destruct (handlers.Encode data) as [b | e]; [by destruct writeErr | done].
Qed.

Lemma writeJSON_recorded {W : Type} `{http.ResponseWriter W}
    (h : handlers.Handler) (statusCode : Z) (data : handlers.Data)
    (now : time.Time) (writeErr : option error) (stdout : File)
    (rw : middleware.responseWriter W) :
  middleware.statusCode
    (http.ServeHTTP
       (handlers.callsOf (handlers.writeJSON h statusCode data now writeErr stdout).1)
       rw)
  = statusCode.
Proof.
  rewrite statusCode_last, writeJSON_ops.
  by destruct (handlers.Encode data).
Qed.

(** X17: [writeJSON] commits the status before it encodes: whatever the
    data, it sets the content type, calls [WriteHeader] once with the given
    code, and then writes the body in one call, if the data can be encoded,
    and nothing otherwise; the body is one line ended by a line separator.
    So the proxy of the middleware records the given code even when the
    encoding or the write fails. *)
Theorem writeJSON_commits_status_first {W : Type} `{http.ResponseWriter W}
    (h : handlers.Handler) (statusCode : Z) (data : handlers.Data)
    (now : time.Time) (writeErr : option error) (stdout : File) (w : W) :
  let ops := (handlers.writeJSON h statusCode data now writeErr stdout).1 in
  ops
  = [ handlers.SetHeader "Content-Type" "application/json";
      handlers.WriterCall (http.CallWriteHeader statusCode) ]
    ++ match handlers.Encode data with
       | Ok b => [handlers.WriterCall (http.CallWrite b)]
       | Err _ => []
       end
  ∧ match handlers.Encode data with
    | Ok b => ∃ line, b = line +:+ String json.newline "" ∧ single_line line
    | Err _ => True
    end
  ∧ firstHeaderWrite (handlers.callsOf ops) = Some statusCode
  ∧ lastHeaderWrite (handlers.callsOf ops) = Some statusCode
  ∧ middleware.statusCode
      (http.ServeHTTP (handlers.callsOf ops)
         (middleware.mkResponseWriter w http.StatusOK))
    = statusCode.
Proof.
  intros ops. unfold ops.
  split; [apply writeJSON_ops |]. split.
  { destruct (handlers.Encode data) as [b |] eqn:E; [by apply (Encode_line data) | done]. }
  split; [| split].
  - rewrite writeJSON_ops. by destruct (handlers.Encode data).
  - rewrite writeJSON_ops. by destruct (handlers.Encode data).
  - apply writeJSON_recorded.
Qed.

(** X18: each of the three handlers is counted with status 200: served
    through the middleware behind any route, whatever the clock, the request
    id, and whether the encoding or the write fails, it adds one to the
    series of the request method, the route pattern and "200". *)
Theorem handlers_counted_with_200 {W : Type} `{http.ResponseWriter W}
    (h : handlers.Handler) (reqID pattern : string) (t1 t2 t3 start finish : time.Time)
    (writeErr : option error) (stdout : File) (w : W) (r : http.Request)
    (reg : metrics.Registry) :
  Forall
    (fun ops =>
       metrics.count
         (middleware.Metrics (routed pattern ops) start finish w r reg).2
         (http.Method r, pattern, "200")
       = metrics.count reg (http.Method r, pattern, "200") + 1)
    [ (handlers.Ping h reqID t1 t2 t3 writeErr stdout).1;
      (handlers.Health h reqID t1 t2 t3 writeErr stdout).1;
      (handlers.Ready h reqID t1 t2 t3 writeErr stdout).1 ].
Proof.
  assert (Hops : ∀ ops,
             middleware.statusCode
               (http.ServeHTTP (handlers.callsOf ops)
                  (middleware.mkResponseWriter w http.StatusOK)) = 200 →
             metrics.count
               (middleware.Metrics (routed pattern ops) start finish w r reg).2
               (http.Method r, pattern, "200")
             = metrics.count reg (http.Method r, pattern, "200") + 1).
  { intros ops Hs.
    rewrite (Metrics_count (routed pattern ops) (mkExchange start finish w r) reg).
    change (labelsOf (routed pattern ops) (mkExchange start finish w r))
      with (http.Method r, pattern,
            strconv.Itoa
              (middleware.statusCode
                 (http.ServeHTTP (handlers.callsOf ops)
                    (middleware.mkResponseWriter w http.StatusOK)))).
    rewrite Hs. by rewrite decide_True. }
  repeat constructor; apply Hops; apply writeJSON_recorded.
Qed.

Lemma derived_debug_dropped (w : slog.Writer) (name ver : string)
    (h : logger.ECSHandler) (t : time.Time) (msg : string) (attrs : list Attr)
    (stdout : File) :
  derived (logger.NewECSHandler w name ver) h →
  logger.Logger_log h (slog.mkRecord t msg slog.LevelDebug attrs) stdout = stdout.
Proof.
  intros Hd. unfold logger.Logger_log. cbn [slog.RecLevel].
  by rewrite (derived_Enabled w name ver h slog.LevelDebug Hd).
Qed.

(** X19: with a logger derived from [NewECSHandler], the debug lines of the
    handlers are never written: a request to /ping, /health or /ready whose
    response is encoded and written leaves the standard output as it was. *)
Theorem handlers_write_no_log_line
    (w : slog.Writer) (name ver : string) (h : handlers.Handler) (reqID : string)
    (tDebug tNow tError : time.Time) (stdout : File) :
  derived (logger.NewECSHandler w name ver) (handlers.logger h) →
  is_Err (Time_MarshalJSON tNow) = false →
  (handlers.Ping h reqID tDebug tNow tError None stdout).2 = stdout
  ∧ (handlers.Ready h reqID tDebug tNow tError None stdout).2 = stdout
  ∧ (handlers.Health h reqID tNow tDebug tError None stdout).2 = stdout.
Proof.
  intros Hd Ht.
  unfold handlers.Ping, handlers.Ready, handlers.Health.
  rewrite !(derived_debug_dropped w name ver) by done.
  unfold handlers.writeJSON, handlers.Encode, models.Marshal_Response,
    models.Marshal_HealthResponse. cbn [models.Time].
  by destruct (Time_MarshalJSON tNow).
Qed.

Lemma handlers_write_no_log_line_witness :
  (handlers.Ping (handlers.New ecs (time.mkTime 1700000000 0 0)) "r-1"
     (time.mkTime 1700000060 0 0) (time.mkTime 1700000060 1000 0)
     (time.mkTime 1700000060 2000 0) None accepting).2 = accepting
  ∧ (handlers.Ready (handlers.New ecs (time.mkTime 1700000000 0 0)) "r-1"
       (time.mkTime 1700000060 0 0) (time.mkTime 1700000060 1000 0)
       (time.mkTime 1700000060 2000 0) None accepting).2 = accepting
  ∧ (handlers.Health (handlers.New ecs (time.mkTime 1700000000 0 0)) "r-1"
       (time.mkTime 1700000060 1000 0) (time.mkTime 1700000060 0 0)
       (time.mkTime 1700000060 2000 0) None accepting).2 = accepting.
Proof.
  apply (handlers_write_no_log_line slog.OsStdout config.ServiceName
           config.ServiceVersion).
  - apply derived_root.
  - reflexivity.
Defined.

(** ** The first line of the application *)

Lemma Load_Ok_loaded (env : gmap string string) (cfg : config.Config) :
  config.Load env = Ok cfg → cfg = loaded env.
Proof.
  rewrite Load_port. destruct (strconv.Atoi _); [by intros [= <-] | done].
Qed.

(** X20: when the configuration loads, the line "application starting" can
    always be serialized and is not filtered; its record carries the port
    and the environment name under server.port and service.environment, the
    service name and version twice (under service and version, which are not
    in the table, and under service.name and service.version), and the
    message. *)
Theorem startup_line_fields
    (env : gmap string string) (cfg : config.Config) (now : time.Time) (stdout : File) :
  config.Load env = Ok cfg →
  let h := logger.New cfg in
  let r := startupRecord cfg now in
  let rec := logger.outputRecord h r in
  rec !! "server.port" = Some (VString (config.getEnv env "PORT" "8080"))
  ∧ rec !! "service.environment"
    = Some (VString (config.getEnv env "ENVIRONMENT" "development"))
  ∧ rec !! "service" = Some (VString config.ServiceName)
  ∧ rec !! "version" = Some (VString config.ServiceVersion)
  ∧ rec !! "service.name" = Some (VString config.ServiceName)
  ∧ rec !! "service.version" = Some (VString config.ServiceVersion)
  ∧ rec !! "message" = Some (VString "application starting")
  ∧ rec !! "port" = None
  ∧ rec !! "environment" = None
  ∧ (logger.Handle h r stdout).1 = None
  ∧ logger.Logger_log h r stdout = (logger.Handle h r stdout).2.
Proof.
  intros HL h r rec. apply Load_Ok_loaded in HL. subst cfg.
  assert (Hl : ∀ k, rec !! k
                    = match lastMapped k (slog.Attrs r) with
                      | Some v => Some v
                      | None => logger.fixedFields h r !! k
                      end)
    by (intros k; apply (assignAll_lookup (slog.Attrs r))).
  rewrite !Hl. do 9 (split; [reflexivity |]).
  split; [| done].
  assert (Hs : map_Forall (fun _ v => v ≠ VChan) rec).
  { apply outputRecord_supported. intros a Ha. cbn in Ha.
    rewrite !elem_of_cons, elem_of_nil in Ha.
    by destruct Ha as [-> | [-> | [-> | [-> | []]]]]. }
  destruct (Marshal_supported rec Hs) as [b Hb].
  by rewrite (Handle_serialized h r stdout b Hb).
Qed.

Lemma startup_line_fields_witness :
  let h := logger.New (loaded ∅) in
  let r := startupRecord (loaded ∅) (time.mkTime 1700000000 0 0) in
  let rec := logger.outputRecord h r in
  rec !! "server.port" = Some (VString (config.getEnv ∅ "PORT" "8080"))
  ∧ rec !! "service.environment"
    = Some (VString (config.getEnv ∅ "ENVIRONMENT" "development"))
  ∧ rec !! "service" = Some (VString config.ServiceName)
  ∧ rec !! "version" = Some (VString config.ServiceVersion)
  ∧ rec !! "service.name" = Some (VString config.ServiceName)
  ∧ rec !! "service.version" = Some (VString config.ServiceVersion)
  ∧ rec !! "message" = Some (VString "application starting")
  ∧ rec !! "port" = None
  ∧ rec !! "environment" = None
  ∧ (logger.Handle h r accepting).1 = None
  ∧ logger.Logger_log h r accepting = (logger.Handle h r accepting).2.
Proof.
  apply (startup_line_fields ∅ (loaded ∅) (time.mkTime 1700000000 0 0) accepting).
  reflexivity.
Defined.

(** ** A header written late *)

Lemma response_latched (calls : list http.Call) (w : http.response) :
  http.wroteHeader w = true →
  http.status (http.ServeHTTP calls w) = http.status w.
Proof.
  revert w. induction calls as [| c calls IH]; intros w Hw; [done |].
  cbn [http.ServeHTTP fold_left]. fold (http.ServeHTTP calls (http.call w c)).
  destruct c as [code | b]; cbn [http.call http.WriteHeader http.Write
                                   http.response_ResponseWriter].
  - unfold http.response_WriteHeader. rewrite Hw. by apply IH.
  - unfold http.response_Write. rewrite Hw. by rewrite IH.
Qed.

Lemma lastHeaderWrite_after (calls : list http.Call) (code : Z) (bs : list string) :
  lastHeaderWrite (calls ++ http.CallWriteHeader code :: (http.CallWrite <$> bs))
  = Some code.
Proof.
  unfold lastHeaderWrite.
  induction bs as [| b bs IH] using rev_ind.
  - cbn [fmap list_fmap]. by rewrite rev_unit.
  - rewrite fmap_app. change (http.CallWrite <$> [b]) with [http.CallWrite b].
    by rewrite app_comm_cons, app_assoc, rev_unit.
Qed.

(** X21: a handler that writes a part of the body before it sets a
    status other than 200 is recorded with the status it set, although the
    server has already sent 200 and ignores the later call: the recorded
    status and the status the client receives differ. *)
Theorem late_WriteHeader_recorded_not_sent
    (b : string) (calls : list http.Call) (code : Z) (bs : list string)
    (pattern : string) (r : http.Request) :
  code ≠ http.StatusOK →
  let next : http.Handler :=
    fun _ =>
      http.mkRun
        (http.CallWrite b :: calls ++ http.CallWriteHeader code :: (http.CallWrite <$> bs))
        pattern in
  middleware.statusCode (middleware.served next http.newResponse r) = code
  ∧ http.status (middleware.inner (middleware.served next http.newResponse r))
    = http.StatusOK
  ∧ middleware.statusCode (middleware.served next http.newResponse r)
    ≠ http.status (middleware.inner (middleware.served next http.newResponse r)).
Proof.
  intros Hcode next.
  assert (Hrec : middleware.statusCode (middleware.served next http.newResponse r)
                 = code).
  { unfold middleware.served. cbn [next http.writerCalls].
    by rewrite statusCode_last, app_comm_cons, lastHeaderWrite_after. }
  assert (Hsent : http.status
                    (middleware.inner (middleware.served next http.newResponse r))
                  = http.StatusOK).
  { unfold middleware.served. cbn [next http.writerCalls].
    rewrite proxy_forwards. cbn [middleware.inner http.ServeHTTP fold_left].
    fold (http.ServeHTTP
            (calls ++ http.CallWriteHeader code :: (http.CallWrite <$> bs))
            (http.call http.newResponse (http.CallWrite b))).
    by rewrite response_latched. }
  do 2 (split; [done |]). by rewrite Hrec, Hsent.
Qed.

Lemma late_WriteHeader_recorded_not_sent_witness :
  let next : http.Handler :=
    fun _ =>
      http.mkRun
        (http.CallWrite "partial" :: [] ++ http.CallWriteHeader 404
           :: (http.CallWrite <$> ["rest"]))
        "/ping" in
  middleware.statusCode (middleware.served next http.newResponse getPing) = 404
  ∧ http.status (middleware.inner (middleware.served next http.newResponse getPing))
    = http.StatusOK
  ∧ middleware.statusCode (middleware.served next http.newResponse getPing)
    ≠ http.status (middleware.inner (middleware.served next http.newResponse getPing)).
Proof.
  apply (late_WriteHeader_recorded_not_sent "partial" [] 404 ["rest"] "/ping" getPing).
  discriminate.
Defined.
